(** * contextpy: layered dispatch for Context-Oriented Programming

    A shallow embedding of [contextpy.py]: the thread-local layer state,
    the scoped layer managers, the advice chain ([_Before], [_Around],
    [_After], [_Stop]) with [proceed], and the layered-method descriptor
    with its chain cache.

    Conventions.
    - A [Layer] object is its identity: the class defines neither
      [__eq__] nor [__hash__], so [is], [==], [in] and dict keys all
      compare identities; the display name plays no part in dispatch.
    - A tuple of layers is a [list layer_]; a dict is an association list
      in insertion order.
    - The list [context = [inst, cls, None]] built by each call is a shared
      mutable object, so contexts live in a store and are passed around by
      reference.
    - Python code that may raise runs in the monad [M]: state passing,
      an exception result, and [None] when the interpreter's recursion
      budget is exhausted. *)

From Stdlib Require Import List String ZArith Bool Arith Lia.
Import ListNotations.
Local Open Scope string_scope.
Local Open Scope list_scope.

(** ** Values, exceptions, results *)

Inductive pyval : Type :=
| PyNone
| PyInt (z : Z)
| PyStr (s : string)
| PyObj (addr : nat).

Definition is_None (v : pyval) : bool :=
  match v with PyNone => true | _ => false end.

Definition args_t := list pyval.
Definition kwargs_t := list (string * pyval).

Inductive exn : Type :=
| Exception_ (msg : string)
| TypeError (msg : string)
| RuntimeError (msg : string)
| AttributeError (msg : string)
| ValueError (msg : string)
| UserError (tag : nat).

Inductive result (A : Type) : Type :=
| Return (a : A)
| Raise (e : exn).
Arguments Return {A} a.
Arguments Raise {A} e.

(** ** Layers *)

(** [Layer(name)]: an object compared by identity. *)
Definition Layer := nat.

(** What a layer slot holds: a [Layer] or Python's [None]. *)
Definition layer_ := option Layer.

(** [a is b] on layer slots. *)
Definition layer_is (a b : layer_) : bool :=
  match a, b with
  | None, None => true
  | Some x, Some y => Nat.eqb x y
  | _, _ => false
  end.

(** [x in xs] on a list or tuple of layer slots. *)
Definition layer_in (x : layer_) (xs : list layer_) : bool :=
  existsb (layer_is x) xs.

(** Tuple equality, element by element, as used for dict keys. *)
Fixpoint tuple_eqb (a b : list layer_) : bool :=
  match a, b with
  | [], [] => true
  | x :: a', y :: b' => layer_is x y && tuple_eqb a' b'
  | _, _ => false
  end.

(** [Layer.getEffectiveLayers]. *)
Definition getEffectiveLayers (self : Layer) (activelayers : list layer_)
  : list layer_ := activelayers.

(** ** Dicts in insertion order *)

Definition dict (V : Type) := list (list layer_ * V).

Fixpoint dict_get {V} (d : dict V) (key : list layer_) : option V :=
  match d with
  | [] => None
  | (k, v) :: d' => if tuple_eqb k key then Some v else dict_get d' key
  end.

(** [d[key] = v]: overwrite in place, or append a new entry. *)
Fixpoint dict_set {V} (d : dict V) (key : list layer_) (v : V) : dict V :=
  match d with
  | [] => [(key, v)]
  | (k, w) :: d' =>
      if tuple_eqb k key then (k, v) :: d' else (k, w) :: dict_set d' key v
  end.

(** [d.pop(key, None)], keeping only the dict. *)
Fixpoint dict_pop {V} (d : dict V) (key : list layer_) : dict V :=
  match d with
  | [] => []
  | (k, w) :: d' => if tuple_eqb k key then d' else (k, w) :: dict_pop d' key
  end.

(** ** Advice bodies and advice chains *)

(** The body of an advice implementation: it returns, raises, or calls
    [proceed] with its own arguments and goes on with what that call returned or
    raised (so a body may catch what [proceed] raises). *)
Inductive body : Type :=
| Ret (v : pyval)
| Throw (e : exn)
| Proceed (args : args_t) (kwargs : kwargs_t) (k : result pyval -> body).

(** Let whatever [proceed] raised propagate. *)
Definition reraise (k : pyval -> body) (r : result pyval) : body :=
  match r with
  | Return v => k v
  | Raise e => Throw e
  end.

(** A callable stored in an advice record: a direct call, and the call of
    [f.__get__(inst, cls)]. *)
Record Func : Type := mkFunc {
  __name__ : string;
  __call__ : args_t -> kwargs_t -> body;
  __get__ : pyval -> pyval -> args_t -> kwargs_t -> body
}.

(** A plain [def]: binding to an instance passes it as first argument,
    binding to a class alone gives the function back. *)
Definition def (name : string) (code : args_t -> kwargs_t -> body) : Func :=
  {| __name__ := name;
     __call__ := code;
     __get__ := fun inst cls args kwargs =>
       if is_None inst then code args kwargs else code (inst :: args) kwargs |}.

(** The advice classes a record names: the decorators [before], [around],
    [after] and [base] register [_Before], [_Around], [_After] and
    [_Around]. *)
Inductive when_ : Type := _Before | _Around | _After.

(** An [_Advice] object: [_Stop(None, None)] or
    [when(method, nextFct)]. *)
Inductive _Advice : Type :=
| _Stop
| Link (when : when_) (_func : Func) (_nextFct : _Advice).

(** ** Interpreter state *)

Definition ctxref := nat.

(** The list [[inst, cls, next]]. *)
Record Context : Type := mkContext {
  ctx_inst : pyval;
  ctx_cls : pyval;
  ctx_next : option _Advice
}.

(** [_MyTLS]: the thread-local slots. *)
Record _MyTLS : Type := mkTLS {
  context : option ctxref;
  activelayers : list layer_
}.

Record State : Type := mkState {
  _baseLayers : list layer_;
  _tls : _MyTLS;
  heap : ctxref -> Context;
  heap_next : ctxref
}.

(** [_MyTLS.__init__]. *)
Definition _MyTLS_init : _MyTLS := {| context := None; activelayers := [] |}.

(** The module right after import. *)
Definition initial_State : State :=
  {| _baseLayers := [None];
     _tls := _MyTLS_init;
     heap := fun _ => mkContext PyNone PyNone None;
     heap_next := 0 |}.

(** ** Scoped layer activation *)

Inductive manager_class : Type :=
| _LayerManager_base
| _LayerActivationManager
| _LayerDeactivationManager.

Record _LayerManager : Type := mkManager {
  mgr_class : manager_class;
  _layers : list layer_;
  _oldLayers : list layer_
}.

(** [_LayerManager.__init__]. *)
Definition _LayerManager_init (c : manager_class) (layers : list layer_)
  : _LayerManager :=
  {| mgr_class := c; _layers := layers; _oldLayers := [] |}.

(** [_getActiveLayers], as overridden by each subclass. *)
Definition _getActiveLayers (self : _LayerManager) : list layer_ :=
  match mgr_class self with
  | _LayerManager_base => _oldLayers self
  | _LayerActivationManager =>
      filter (fun layer => negb (layer_in layer (_layers self)))
             (_oldLayers self) ++ _layers self
  | _LayerDeactivationManager =>
      filter (fun layer => negb (layer_in layer (_layers self)))
             (_oldLayers self)
  end.

Definition __enter__ (self : _LayerManager) (tls : _MyTLS)
  : _LayerManager * _MyTLS :=
  let self' := {| mgr_class := mgr_class self;
                  _layers := _layers self;
                  _oldLayers := activelayers tls |} in
  (self', {| context := context tls;
             activelayers := _getActiveLayers self' |}).

Definition __exit__ (self : _LayerManager) (tls : _MyTLS) : _MyTLS :=
  {| context := context tls; activelayers := _oldLayers self |}.

Definition activeLayer (layer : layer_) : _LayerManager :=
  _LayerManager_init _LayerActivationManager [layer].

Definition inactiveLayer (layer : layer_) : _LayerManager :=
  _LayerManager_init _LayerDeactivationManager [layer].

Definition activeLayers (layers : list layer_) : _LayerManager :=
  _LayerManager_init _LayerActivationManager layers.

Definition inactiveLayers (layers : list layer_) : _LayerManager :=
  _LayerManager_init _LayerDeactivationManager layers.

(** ** The monad of Python code that runs against the interpreter state *)

Definition M (A : Type) : Type := State -> option (result A * State).

Definition ret {A} (a : A) : M A := fun s => Some (Return a, s).

Definition raise {A} (e : exn) : M A := fun s => Some (Raise e, s).

Definition bind {A B} (m : M A) (f : A -> M B) : M B :=
  fun s =>
    match m s with
    | None => None
    | Some (Return a, s') => f a s'
    | Some (Raise e, s') => Some (Raise e, s')
    end.

Notation "x <- m ;; k" := (bind m (fun x => k))
  (at level 61, m at next level, right associativity).
Notation "m ;;; k" := (bind m (fun _ => k))
  (at level 61, right associativity).

Definition set_tls (s : State) (t : _MyTLS) : State :=
  {| _baseLayers := _baseLayers s; _tls := t;
     heap := heap s; heap_next := heap_next s |}.

(** [_tls.context]. *)
Definition get_context : M (option ctxref) :=
  fun s => Some (Return (context (_tls s)), s).

(** [_tls.context = c]. *)
Definition set_context (c : option ctxref) : M unit :=
  fun s => Some (Return tt,
                 set_tls s {| context := c;
                              activelayers := activelayers (_tls s) |}).

(** The list behind a context reference. *)
Definition deref (ctx : ctxref) : M Context :=
  fun s => Some (Return (heap s ctx), s).

(** [context[2] = a]. *)
Definition set_next (ctx : ctxref) (a : option _Advice) : M unit :=
  fun s =>
    let c := heap s ctx in
    Some (Return tt,
          {| _baseLayers := _baseLayers s; _tls := _tls s;
             heap := fun r => if Nat.eqb r ctx
                              then mkContext (ctx_inst c) (ctx_cls c) a
                              else heap s r;
             heap_next := heap_next s |}).

(** A fresh list [[inst, cls, None]]. *)
Definition new_context (inst cls : pyval) (s : State) : ctxref * State :=
  let r := heap_next s in
  (r, {| _baseLayers := _baseLayers s; _tls := _tls s;
         heap := fun r' => if Nat.eqb r' r
                           then mkContext inst cls None
                           else heap s r';
         heap_next := S r |}).

(** The [with manager: block] statement: [__exit__] runs however the block
    ends. *)
Definition with_ {A} (manager : _LayerManager) (block : M A) : M A :=
  fun s =>
    let '(manager', tls1) := __enter__ manager (_tls s) in
    match block (set_tls s tls1) with
    | None => None
    | Some (r, s2) => Some (r, set_tls s2 (__exit__ manager' (_tls s2)))
    end.

(** ** Running advice *)

Definition _Stop_msg : string :=
  "called proceed() in innermost function, this probably means that you don't have a base method (`around` advice in None layer) or the base method itself calls proceed()".

Definition not_subscriptable : string :=
  "'NoneType' object is not subscriptable".

Definition not_callable : string := "'NoneType' object is not callable".

Definition multiple_values : string :=
  "dict() got multiple values for keyword argument '__result__'".

(** [proceed], given how an advice object is called. *)
Definition proceed_with (call : _Advice -> ctxref -> args_t -> kwargs_t -> M pyval)
  (args : args_t) (kwargs : kwargs_t) : M pyval :=
  c <- get_context ;;
  match c with
  | None => raise (TypeError not_subscriptable)
  | Some ctx =>
      cell <- deref ctx ;;
      match ctx_next cell with
      | None => raise (TypeError not_callable)
      | Some nextFct => call nextFct ctx args kwargs
      end
  end.

(** Running a body, given what [proceed] does. *)
Fixpoint run_body (proceed : args_t -> kwargs_t -> M pyval) (b : body)
  : M pyval :=
  match b with
  | Ret v => ret v
  | Throw e => raise e
  | Proceed args kwargs k =>
      fun s =>
        match proceed args kwargs s with
        | None => None
        | Some (r, s') => run_body proceed (k r) s'
        end
  end.

(** The call [_invoke] makes: the function itself when the context names
    neither an instance nor a class, the bound function otherwise. *)
Definition bound_call (_func : Func) (cell : Context) (args : args_t)
  (kwargs : kwargs_t) : body :=
  if is_None (ctx_inst cell) && is_None (ctx_cls cell)
  then __call__ _func args kwargs
  else __get__ _func (ctx_inst cell) (ctx_cls cell) args kwargs.

(** [_Advice._invoke]. *)
Definition _invoke (proceed : args_t -> kwargs_t -> M pyval)
  (_func : Func) (ctx : ctxref) (args : args_t) (kwargs : kwargs_t)
  : M pyval :=
  cell <- deref ctx ;;
  run_body proceed (bound_call _func cell args kwargs).

(** [dict(__result__=result, **kwargs)]. *)
Definition with_result (result_ : pyval) (kwargs : kwargs_t) : M kwargs_t :=
  if existsb (fun kv => String.eqb (fst kv) "__result__") kwargs
  then raise (TypeError multiple_values)
  else ret (("__result__", result_) :: kwargs).

(** [advice(context, args, kwargs)] for the four advice classes.  Each
    call of an advice object takes one unit of the recursion budget. *)
Fixpoint Advice_call (fuel : nat) (self : _Advice) (ctx : ctxref)
  (args : args_t) (kwargs : kwargs_t) {struct fuel} : M pyval :=
  match fuel with
  | O => fun _ => None
  | S fuel' =>
      let proceed := proceed_with (Advice_call fuel') in
      match self with
      | _Stop => raise (Exception_ _Stop_msg)
      | Link _Before _func _nextFct =>
          _invoke proceed _func ctx args kwargs ;;;
          Advice_call fuel' _nextFct ctx args kwargs
      | Link _Around _func _nextFct =>
          backup <- get_context ;;
          set_context (Some ctx) ;;;
          set_next ctx (Some _nextFct) ;;;
          result_ <- _invoke proceed _func ctx args kwargs ;;
          set_context backup ;;;
          ret result_
      | Link _After _func _nextFct =>
          result_ <- Advice_call fuel' _nextFct ctx args kwargs ;;
          kwargsWithResult <- with_result result_ kwargs ;;
          _invoke proceed _func ctx args kwargsWithResult
      end
  end.

(** [proceed] as user code sees it. *)
Definition proceed (fuel : nat) : args_t -> kwargs_t -> M pyval :=
  proceed_with (Advice_call fuel).

(** [_Advice.createChain]. *)
Fixpoint createChain (methods : list (Func * when_)) : _Advice :=
  match methods with
  | [] => _Stop
  | (method, when) :: rest => Link when method (createChain rest)
  end.

(** [_true]. *)
Definition _true (activelayers : list layer_) : bool := true.

(** ** The layered-method descriptor *)

(** One advice record [(layer_, f, when, guard, methodName)]; the records
    built by [createlayeredmethod] and [base] have no fifth component. *)
Record lmwgm : Type := mkRecord {
  lm_layer : layer_;
  lm_func : Func;
  lm_when : when_;
  lm_guard : list layer_ -> bool;
  lm_name : option string
}.

Record _LayeredMethodDescriptor : Type := mkDescriptor {
  _methods : list lmwgm;
  _cache : dict _Advice
}.

(** [_LayeredMethodDescriptor.__init__]. *)
Definition _LayeredMethodDescriptor_init (methods : list lmwgm)
  : _LayeredMethodDescriptor :=
  {| _methods := methods; _cache := [] |}.

Definition changed_size : string :=
  "dictionary changed size during iteration".

(** The loop of [_clearCache] over the live key view of the dict: the
    iterator remembers the size the dict had when the loop started
    ([di_used]) and how far it got ([di_pos]); each step first compares
    sizes, raising [RuntimeError] when they differ, then yields the next
    key or ends the loop.  A position is only read while the size is
    unchanged, that is while nothing has been popped. *)
Fixpoint _clearCache_loop (steps : nat) (di_used di_pos : nat)
  (cache : dict _Advice) : option (result unit * dict _Advice) :=
  match steps with
  | O => None
  | S steps' =>
      if Nat.eqb (List.length cache) di_used then
        match nth_error cache di_pos with
        | None => Some (Return tt, cache)
        | Some (key, _) =>
            _clearCache_loop steps' di_used (S di_pos) (dict_pop cache key)
        end
      else Some (Raise (RuntimeError changed_size), cache)
  end.

(** [_clearCache]: the iterator is asked for a key at most once more than
    the dict has entries. *)
Definition _clearCache (self : _LayeredMethodDescriptor)
  : option (result unit * _LayeredMethodDescriptor) :=
  match _clearCache_loop (S (List.length (_cache self)))
          (List.length (_cache self)) 0 (_cache self) with
  | None => None
  | Some (r, cache') =>
      Some (r, {| _methods := _methods self; _cache := cache' |})
  end.

(** The inner loop of [cacheMethods]: the records of [currentlayer] whose
    guard accepts the combination, in registration order. *)
Definition eligible (methods : list lmwgm) (activelayers : list layer_)
  (currentlayer : layer_) : list (Func * when_) :=
  map (fun r => (lm_func r, lm_when r))
      (filter (fun r => layer_is (lm_layer r) currentlayer
                        && lm_guard r activelayers)
              methods).

(** The outer loop: one group per entry of the combination, in
    combination order. *)
Definition selected (methods : list lmwgm) (activelayers : list layer_)
  : list (Func * when_) :=
  flat_map (eligible methods activelayers) activelayers.

(** [cacheMethods]: the chain built, and the descriptor with the chain
    stored under [activelayers]. *)
Definition cacheMethods (self : _LayeredMethodDescriptor)
  (activelayers : list layer_) : _Advice * _LayeredMethodDescriptor :=
  let layers :=
    fold_left (fun layers layer_ =>
                 match layer_ with
                 | Some l => getEffectiveLayers l layers
                 | None => layers
                 end) activelayers activelayers in
  let methods := selected (_methods self) activelayers in
  let methods := rev methods in
  let result_ := createChain methods in
  (result_, {| _methods := _methods self;
               _cache := dict_set (_cache self) activelayers result_ |}).

(** [setMethods]: the slice assignment, then [_clearCache]. *)
Definition setMethods (self : _LayeredMethodDescriptor)
  (methods : list lmwgm) : option (result unit * _LayeredMethodDescriptor) :=
  _clearCache {| _methods := methods; _cache := _cache self |}.

Definition getMethods (self : _LayeredMethodDescriptor) : list lmwgm :=
  _methods self.

(** [registerMethod]; both assertions hold by typing. *)
Definition registerMethod (self : _LayeredMethodDescriptor) (f : Func)
  (when : when_) (layer_0 : layer_) (guard : list layer_ -> bool)
  (methodName : string) : option (result unit * _LayeredMethodDescriptor) :=
  let methodName := if String.eqb methodName "" then __name__ f
                    else methodName in
  setMethods self
    (getMethods self ++ [mkRecord layer_0 f when guard (Some methodName)]).

(** [unregisterMethod]: evaluating [self._descriptor] fails, a descriptor
    has no such attribute, before anything is assigned. *)
Definition unregisterMethod (self : _LayeredMethodDescriptor) (f : Func)
  (layer_0 : layer_) : option (result unit * _LayeredMethodDescriptor) :=
  Some (Raise (AttributeError
     "'_LayeredMethodDescriptor' object has no attribute '_descriptor'"),
        self).

(** [createlayeredmethod]. *)
Definition createlayeredmethod (baseMethod : option Func)
  (partial : list lmwgm) : _LayeredMethodDescriptor :=
  match baseMethod with
  | Some b =>
      _LayeredMethodDescriptor_init
        (mkRecord None b _Around _true None :: partial)
  | None => _LayeredMethodDescriptor_init partial
  end.

(** The chain a call runs: [self._cache.get(activelayers) or
    self.cacheMethods(activelayers)]; an advice object is never falsy. *)
Definition lookup_or_build (self : _LayeredMethodDescriptor)
  (activelayers : list layer_) : _Advice * _LayeredMethodDescriptor :=
  match dict_get (_cache self) activelayers with
  | Some advice => (advice, self)
  | None => cacheMethods self activelayers
  end.

(** [_LayeredMethodInvocationProxy.__call__] on the proxy
    [(descriptor, inst, cls)]: the descriptor as the call leaves it, and
    the outcome of running the chain. *)
Definition proxy_call (fuel : nat) (descriptor : _LayeredMethodDescriptor)
  (inst cls : pyval) (args : args_t) (kwargs : kwargs_t) (s : State)
  : _LayeredMethodDescriptor * option (result pyval * State) :=
  let activelayers := _baseLayers s ++ activelayers (_tls s) in
  let '(advice, descriptor') := lookup_or_build descriptor activelayers in
  let '(context, s1) := new_context inst cls s in
  (descriptor', Advice_call fuel advice context args kwargs s1).

(** [_LayeredMethodDescriptor.__call__], for plain functions. *)
Definition descriptor_call (fuel : nat) (self : _LayeredMethodDescriptor)
  (args : args_t) (kwargs : kwargs_t) (s : State)
  : _LayeredMethodDescriptor * option (result pyval * State) :=
  let activelayers := _baseLayers s ++ activelayers (_tls s) in
  let '(advice, self') := lookup_or_build self activelayers in
  let '(context, s1) := new_context PyNone PyNone s in
  (self', Advice_call fuel advice context args kwargs s1).

(** ** The process-wide base layers *)

Definition set_baseLayers (s : State) (b : list layer_) : State :=
  {| _baseLayers := b; _tls := _tls s;
     heap := heap s; heap_next := heap_next s |}.

Definition globalActivateLayer (layer : layer_) (s : State)
  : result (list layer_) * State :=
  if layer_in layer (_baseLayers s)
  then (Raise (ValueError "layer is already active"), s)
  else let b := _baseLayers s ++ [layer] in
       (Return b, set_baseLayers s b).

Definition globalDeactivateLayer (layer : layer_) (s : State)
  : result (list layer_) * State :=
  if negb (layer_in layer (_baseLayers s))
  then (Raise (ValueError "layer is not active"), s)
  else let b := filter (fun l => negb (layer_is l layer)) (_baseLayers s) in
       (Return b, set_baseLayers s b).

(** ** Reading a chain *)

(** The links of a chain from the outermost to the innermost, without the
    closing [_Stop]. *)
Fixpoint links (a : _Advice) : list (Func * when_) :=
  match a with
  | _Stop => []
  | Link when _func _nextFct => (_func, when) :: links _nextFct
  end.

(** The first link a call enters. *)
Definition outermost (a : _Advice) : option (Func * when_) :=
  hd_error (links a).

(** The last link before [_Stop]. *)
Definition innermost (a : _Advice) : option (Func * when_) :=
  hd_error (rev (links a)).

(** The combination a dispatch in state [s] works with. *)
Definition combination (s : State) : list layer_ :=
  _baseLayers s ++ activelayers (_tls s).

(** The chain a dispatch in state [s] runs for descriptor [d]. *)
Definition dispatched (d : _LayeredMethodDescriptor) (s : State) : _Advice :=
  fst (lookup_or_build d (combination s)).

(** A base method, in the words of the error [_Stop] raises: around
    advice in the [None] layer.  [createlayeredmethod] and [base] make
    such records; [before] and [after] with their default layer make
    advice of layer [None] that is no base method. *)
Definition is_base (r : lmwgm) : bool :=
  layer_is (lm_layer r) None
  && match lm_when r with _Around => true | _ => false end.

(** The records of layer [None] that a combination makes eligible, base
    methods and other advice alike, in registration order. *)
Definition None_records (methods : list lmwgm) (activelayers : list layer_)
  : list lmwgm :=
  filter (fun r => layer_is (lm_layer r) None && lm_guard r activelayers)
         methods.

(** The innermost link of the chain built for a combination is the
    implementation of an eligible base method. *)
Definition base_innermost (methods : list lmwgm)
  (activelayers : list layer_) : Prop :=
  exists r, In r (None_records methods activelayers) /\
    is_base r = true /\
    innermost (createChain (rev (selected methods activelayers)))
    = Some (lm_func r, lm_when r).

(** What the cache holds under [key], if anything, is the chain
    [cacheMethods] builds for [key] from the current records. *)
Definition cache_fresh_at (d : _LayeredMethodDescriptor)
  (key : list layer_) : Prop :=
  match dict_get (_cache d) key with
  | Some a => a = createChain (rev (selected (_methods d) key))
  | None => True
  end.

(** The state with other active layers. *)
Definition with_layers (s : State) (layers : list layer_) : State :=
  set_tls s {| context := context (_tls s); activelayers := layers |}.

(** ** Declaring layered methods *)

(** What a name of the declaring class body or module is bound to. *)
Inductive binding : Type :=
| Plain (f : Func)
| Layered (d : _LayeredMethodDescriptor).

(** The locals of the declaring scope, which the decorators read through
    [sys._getframe]. *)
Definition namespace := list (string * binding).

(** [vars.get(name)]. *)
Fixpoint vars_get (vars : namespace) (name : string) : option binding :=
  match vars with
  | [] => None
  | (n, b) :: vars' => if String.eqb n name then Some b else vars_get vars' name
  end.

(** [vars[name] = b]. *)
Fixpoint vars_set (vars : namespace) (name : string) (b : binding)
  : namespace :=
  match vars with
  | [] => [(name, b)]
  | (n, b') :: vars' =>
      if String.eqb n name then (n, b) :: vars'
      else (n, b') :: vars_set vars' name b
  end.

(** [getMethodName]: a [Func] carries the name of the function it wraps. *)
Definition getMethodName (method : Func) : string := __name__ method.

(** The decorator returned by [__common(layer_, guard, when)], applied to
    [method] in a scope with locals [vars]: the value it returns, and the
    locals afterwards ([registerMethod] changes the descriptor the name is
    bound to in place, also when it raises). *)
Definition __common (layer_0 : layer_) (guard : list layer_ -> bool)
  (when : when_) (vars : namespace) (method : Func)
  : option (result binding * namespace) :=
  let methodName := getMethodName method in
  match vars_get vars methodName with
  | Some (Layered currentMethod) =>
      match registerMethod currentMethod method when layer_0 guard
              methodName with
      | None => None
      | Some (Return _, d') =>
          Some (Return (Layered d'), vars_set vars methodName (Layered d'))
      | Some (Raise e, d') =>
          Some (Raise e, vars_set vars methodName (Layered d'))
      end
  | Some (Plain currentMethod) =>
      Some (Return (Layered
              (createlayeredmethod (Some currentMethod)
                 [mkRecord layer_0 method when guard (Some methodName)])),
            vars)
  | None =>
      Some (Return (Layered
              (createlayeredmethod None
                 [mkRecord layer_0 method when guard (Some methodName)])),
            vars)
  end.

Definition before (layer_0 : layer_) (guard : list layer_ -> bool) :=
  __common layer_0 guard _Before.

Definition around (layer_0 : layer_) (guard : list layer_ -> bool) :=
  __common layer_0 guard _Around.

Definition after (layer_0 : layer_) (guard : list layer_ -> bool) :=
  __common layer_0 guard _After.

(** The decorator [base]. *)
Definition base (vars : namespace) (method : Func)
  : option (result binding * namespace) :=
  let methodName := getMethodName method in
  match vars_get vars methodName with
  | Some (Layered currentMethod) =>
      match setMethods currentMethod
              (getMethods currentMethod
               ++ [mkRecord None method _Around _true None]) with
      | None => None
      | Some (Return _, d') =>
          Some (Return (Layered d'), vars_set vars methodName (Layered d'))
      | Some (Raise e, d') =>
          Some (Raise e, vars_set vars methodName (Layered d'))
      end
  | _ => Some (Return (Plain method), vars)
  end.

(** The statement [def method] without decorator. *)
Definition def_plain (method : Func) (vars : namespace) : namespace :=
  vars_set vars (__name__ method) (Plain method).

(** The statement [@decorator def method]: the name of the function is
    bound to what the decorator returns; when the decorator raises, the
    name keeps its binding. *)
Definition def_decorated
  (decorator : namespace -> Func -> option (result binding * namespace))
  (method : Func) (vars : namespace) : option (result unit * namespace) :=
  match decorator vars method with
  | None => None
  | Some (Return b, vars') =>
      Some (Return tt, vars_set vars' (__name__ method) b)
  | Some (Raise e, vars') => Some (Raise e, vars')
  end.

(** The namespace a declaration leaves (the one it started from when the
    loop budget of a registration runs out). *)
Definition declared (r : option (result unit * namespace))
  (vars : namespace) : namespace :=
  match r with
  | Some (_, vars') => vars'
  | None => vars
  end.

(** ** More vocabulary *)

(** Every cached chain is the chain [cacheMethods] builds for its key from
    the current records. *)
Definition cache_fresh (d : _LayeredMethodDescriptor) : Prop :=
  forall key, cache_fresh_at d key.

(** The records registered for one layer, in registration order. *)
Definition records_of (methods : list lmwgm) (l : layer_) : list lmwgm :=
  filter (fun r => layer_is (lm_layer r) l) methods.

(** How a chain call may leave [_tls.context]: as it was when the call
    returns; as it was, or pointing at the call's own context, when it
    raises. *)
Definition context_after (ctx : ctxref) {A} (m : M A) : Prop :=
  forall s r s', m s = Some (r, s') ->
    match r with
    | Return _ => context (_tls s') = context (_tls s)
    | Raise _ => context (_tls s') = context (_tls s)
                 \/ context (_tls s') = Some ctx
    end.

(** A computation that leaves [_tls.context] as it was. *)
Definition context_kept {A} (m : M A) : Prop :=
  forall s r s', m s = Some (r, s') ->
    context (_tls s') = context (_tls s).

(** ** Sample layers and implementations *)

Module Sample.

Definition L1 : Layer := 1.
Definition L2 : Layer := 2.
Definition G : Layer := 3.

(** [def probe( *args, **kwargs): return len(args) + len(kwargs)] *)
Definition probe : Func :=
  def "probe" (fun args kwargs =>
    Ret (PyInt (Z.of_nat (List.length args + List.length kwargs)))).

(** [def first(x=None): return x] *)
Definition first : Func :=
  def "first" (fun args kwargs =>
    Ret (match args with x :: _ => x | [] => PyNone end)).

(** [def bare( *args, **kwargs): return proceed()] *)
Definition bare : Func :=
  def "bare" (fun args kwargs => Proceed [] [] (reraise Ret)).

(** [def incr(x): return proceed(x) + 1] *)
Definition incr : Func :=
  def "incr" (fun args kwargs =>
    Proceed args kwargs
      (reraise (fun v => match v with
                         | PyInt z => Ret (PyInt (z + 1))
                         | _ => Throw (TypeError "unsupported operand")
                         end))).

(** [def twice(x): return proceed(x) * 2] *)
Definition twice : Func :=
  def "twice" (fun args kwargs =>
    Proceed args kwargs
      (reraise (fun v => match v with
                         | PyInt z => Ret (PyInt (z * 2))
                         | _ => Throw (TypeError "unsupported operand")
                         end))).

(** [def boom( *args): raise UserError] *)
Definition boom : Func :=
  def "boom" (fun args kwargs => Throw (UserError 7)).

(** A layered function with base [probe] and, in layer [L1], the around
    advice [bare]. *)
Definition probed : _LayeredMethodDescriptor :=
  createlayeredmethod (Some probe)
    [mkRecord (Some L1) bare _Around _true (Some "probe")].

(** A layered function whose base raises. *)
Definition failing : _LayeredMethodDescriptor :=
  createlayeredmethod (Some boom) [].

(** A layered function with base [first]. *)
Definition plain : _LayeredMethodDescriptor :=
  createlayeredmethod (Some first) [].

(** A layered function with base [first] and around advice [incr] in the
    layer [G]. *)
Definition counted : _LayeredMethodDescriptor :=
  createlayeredmethod (Some first)
    [mkRecord (Some G) incr _Around _true (Some "first")].

(** A layered function with advice in [L1] only: no base. *)
Definition baseless : _LayeredMethodDescriptor :=
  createlayeredmethod None
    [mkRecord (Some L1) incr _Around _true (Some "incr")].

(** The result of a call alone. *)
Definition result_of
  (x : _LayeredMethodDescriptor * option (result pyval * State))
  : option (result pyval) :=
  option_map fst (snd x).

(** The base layers after [globalDeactivateLayer(None)],
    [globalActivateLayer(G)], [globalActivateLayer(None)]. *)
Definition regrouped : State :=
  snd (globalActivateLayer None
         (snd (globalActivateLayer (Some G)
                 (snd (globalDeactivateLayer None initial_State))))).

(** A layered function with base [first], around advice [twice] in layer
    [G] and around advice [incr] in layer [L1]. *)
Definition stacked : _LayeredMethodDescriptor :=
  createlayeredmethod (Some first)
    [mkRecord (Some G) twice _Around _true (Some "first");
     mkRecord (Some L1) incr _Around _true (Some "first")].

(** [plain] after one call with no layer active and one call with [L1]
    active: its cache holds a chain for each of the two combinations. *)
Definition warmed : _LayeredMethodDescriptor :=
  fst (descriptor_call 3
         (fst (descriptor_call 3 plain [PyInt 5] [] initial_State))
         [PyInt 5] [] (with_layers initial_State [Some L1])).

(** What [warmed] is once [registerMethod] has added the around advice
    [incr] for layer [L1] (the descriptor itself when the loop budget runs
    out). *)
Definition extended : _LayeredMethodDescriptor :=
  match registerMethod warmed incr _Around (Some L1) _true "" with
  | Some (_, d) => d
  | None => warmed
  end.

(** A guard that accepts the combinations made of [None] and one more
    entry. *)
Definition None_and_one (activelayers : list layer_) : bool :=
  layer_in None activelayers && Nat.eqb (List.length activelayers) 2.

(** A layered function whose advice in [L1] is guarded by
    [None_and_one]. *)
Definition guarded : _LayeredMethodDescriptor :=
  createlayeredmethod (Some first)
    [mkRecord (Some L1) incr _Around None_and_one (Some "first")].

(** A layered function with base [first], around advice [incr] in layer
    [L1] and around advice [twice] in layer [L2]. *)
Definition layered : _LayeredMethodDescriptor :=
  createlayeredmethod (Some first)
    [mkRecord (Some L1) incr _Around _true (Some "first");
     mkRecord (Some L2) twice _Around _true (Some "first")].

(** A call of a layered function as a block of a [with] statement. *)
Definition call (fuel : nat) (d : _LayeredMethodDescriptor)
  (args : args_t) (kwargs : kwargs_t) : M pyval :=
  fun s => snd (descriptor_call fuel d args kwargs s).

(** [def again(x): proceed(x); return proceed(x)] *)
Definition again : Func :=
  def "again" (fun args kwargs =>
    Proceed args kwargs
      (reraise (fun _ => Proceed args kwargs (reraise Ret)))).

(** A layered function with base [first] and around advice [again] in
    layer [L1]. *)
Definition repeated : _LayeredMethodDescriptor :=
  createlayeredmethod (Some first)
    [mkRecord (Some L1) again _Around _true (Some "first")].

(** [def log( *args, **kwargs): return None] *)
Definition log : Func := def "log" (fun args kwargs => Ret PyNone).

(** [def negate(x, __result__): return -__result__] *)
Definition negate : Func :=
  def "negate" (fun args kwargs =>
    match kwargs with
    | (_, PyInt z) :: _ => Ret (PyInt (- z))
    | _ => Throw (TypeError "bad operand type for unary -")
    end).

(** A second implementation named [first]: [def first(x): return proceed(x) + 1]. *)
Definition first_incr : Func :=
  def "first" (fun args kwargs =>
    Proceed args kwargs
      (reraise (fun v => match v with
                         | PyInt z => Ret (PyInt (z + 1))
                         | _ => Throw (TypeError "unsupported operand")
                         end))).

(** A before advice named [first]: [def first( *args, **kwargs): return None]. *)
Definition first_log : Func := def "first" (fun args kwargs => Ret PyNone).

(** The locals of a scope that declares
    [@before() def first ...] and then [@base def first ...]. *)
Definition announced_vars : namespace :=
  declared
    (def_decorated base first
       (declared (def_decorated (before None _true) first_log []) []))
    (declared (def_decorated (before None _true) first_log []) []).

(** The layered method a name is bound to ([plain] when it is bound to
    none). *)
Definition bound_method (vars : namespace) (name : string)
  : _LayeredMethodDescriptor :=
  match vars_get vars name with
  | Some (Layered d) => d
  | _ => plain
  end.

(** The method declared by [@before() def first], [@base def first]. *)
Definition announced : _LayeredMethodDescriptor :=
  bound_method announced_vars "first".

(** The same declarations followed by [@around(L1) def first]. *)
Definition announced_layered : _LayeredMethodDescriptor :=
  bound_method
    (declared (def_decorated (around (Some L1) _true) first_incr
                 announced_vars) announced_vars)
    "first".

(** A layered function with base [first] and, in layer [L1], around advice
    that raises. *)
Definition tripping : _LayeredMethodDescriptor :=
  createlayeredmethod (Some first)
    [mkRecord (Some L1) boom _Around _true (Some "first")].

(** The state a call of [tripping] with [L1] active leaves behind (the
    starting state when the budget runs out). *)
Definition tripped : State :=
  match snd (descriptor_call 3 tripping [PyInt 5] []
               (with_layers initial_State [Some L1])) with
  | Some (_, s) => s
  | None => with_layers initial_State [Some L1]
  end.

End Sample.

(** The state once [_Around.__call__] has installed its context and its
    next link. *)
Definition installed (ctx : ctxref) (nxt : _Advice) (s : State) : State :=
  {| _baseLayers := _baseLayers s;
     _tls := {| context := Some ctx;
                activelayers := activelayers (_tls s) |};
     heap := fun r => if Nat.eqb r ctx
                      then mkContext (ctx_inst (heap s ctx))
                                     (ctx_cls (heap s ctx)) (Some nxt)
                      else heap s r;
     heap_next := heap_next s |}.

(** Two states with the same base layers and the same active layers. *)
Definition same_layers (s s' : State) : Prop :=
  _baseLayers s' = _baseLayers s
  /\ activelayers (_tls s') = activelayers (_tls s).

(** A computation that changes neither. *)
Definition keeps_layers {A} (m : M A) : Prop :=
  forall s r s', m s = Some (r, s') -> same_layers s s'.

(** ** Advice that calls the layered method again

    [_invoke] runs arbitrary Python.  The bodies of [body] use the library
    through [proceed] alone; the bodies below may also call the layered
    method they belong to and open layer scopes, so the descriptor of that
    method is part of the state.  The classes and the dispatcher are the
    ones above, run over these bodies. *)

Module Reentrant.

Inductive body : Type :=
| Ret (v : pyval)
| Throw (e : exn)
| Proceed (args : args_t) (kwargs : kwargs_t) (k : result pyval -> body)
| Call (args : args_t) (kwargs : kwargs_t) (k : result pyval -> body)
| With (manager : _LayerManager) (block : body) (k : result pyval -> body).

Definition reraise (k : pyval -> body) (r : result pyval) : body :=
  match r with
  | Return v => k v
  | Raise e => Throw e
  end.

Record Func : Type := mkFunc {
  __name__ : string;
  __call__ : args_t -> kwargs_t -> body;
  __get__ : pyval -> pyval -> args_t -> kwargs_t -> body
}.

Definition def (name : string) (code : args_t -> kwargs_t -> body) : Func :=
  {| __name__ := name;
     __call__ := code;
     __get__ := fun inst cls args kwargs =>
       if is_None inst then code args kwargs else code (inst :: args) kwargs |}.

Inductive _Advice : Type :=
| _Stop
| Link (when : when_) (_func : Func) (_nextFct : _Advice).

Record Context : Type := mkContext {
  ctx_inst : pyval;
  ctx_cls : pyval;
  ctx_next : option _Advice
}.

Record lmwgm : Type := mkRecord {
  lm_layer : layer_;
  lm_func : Func;
  lm_when : when_;
  lm_guard : list layer_ -> bool;
  lm_name : option string
}.

Record _LayeredMethodDescriptor : Type := mkDescriptor {
  _methods : list lmwgm;
  _cache : dict _Advice
}.

(** The interpreter state, with the descriptor of the layered method the
    bodies call. *)
Record State : Type := mkState {
  _baseLayers : list layer_;
  _tls : _MyTLS;
  heap : ctxref -> Context;
  heap_next : ctxref;
  layered : _LayeredMethodDescriptor
}.

Definition M (A : Type) : Type := State -> option (result A * State).

Definition ret {A} (a : A) : M A := fun s => Some (Return a, s).

Definition raise {A} (e : exn) : M A := fun s => Some (Raise e, s).

Definition bind {A B} (m : M A) (f : A -> M B) : M B :=
  fun s =>
    match m s with
    | None => None
    | Some (Return a, s') => f a s'
    | Some (Raise e, s') => Some (Raise e, s')
    end.

Definition set_tls (s : State) (t : _MyTLS) : State :=
  {| _baseLayers := _baseLayers s; _tls := t; heap := heap s;
     heap_next := heap_next s; layered := layered s |}.

Definition get_context : M (option ctxref) :=
  fun s => Some (Return (context (_tls s)), s).

Definition set_context (c : option ctxref) : M unit :=
  fun s => Some (Return tt,
                 set_tls s {| context := c;
                              activelayers := activelayers (_tls s) |}).

Definition deref (ctx : ctxref) : M Context :=
  fun s => Some (Return (heap s ctx), s).

Definition set_next (ctx : ctxref) (a : option _Advice) : M unit :=
  fun s =>
    let c := heap s ctx in
    Some (Return tt,
          {| _baseLayers := _baseLayers s; _tls := _tls s;
             heap := fun r => if Nat.eqb r ctx
                              then mkContext (ctx_inst c) (ctx_cls c) a
                              else heap s r;
             heap_next := heap_next s; layered := layered s |}).

Definition new_context (inst cls : pyval) (s : State) : ctxref * State :=
  let r := heap_next s in
  (r, {| _baseLayers := _baseLayers s; _tls := _tls s;
         heap := fun r' => if Nat.eqb r' r
                           then mkContext inst cls None
                           else heap s r';
         heap_next := S r; layered := layered s |}).

Definition set_layered (s : State) (d : _LayeredMethodDescriptor) : State :=
  {| _baseLayers := _baseLayers s; _tls := _tls s; heap := heap s;
     heap_next := heap_next s; layered := d |}.

(** [proceed]. *)
Definition proceed_with
  (call : _Advice -> ctxref -> args_t -> kwargs_t -> M pyval)
  (args : args_t) (kwargs : kwargs_t) : M pyval :=
  bind get_context (fun c =>
  match c with
  | None => raise (TypeError not_subscriptable)
  | Some ctx =>
      bind (deref ctx) (fun cell =>
      match ctx_next cell with
      | None => raise (TypeError not_callable)
      | Some nextFct => call nextFct ctx args kwargs
      end)
  end).

(** Running a body, given what [proceed] and a call of the layered method
    do.  [With manager block k] is [with manager: block]: [__exit__] runs
    however the block ends. *)
Fixpoint run_body (proceed call : args_t -> kwargs_t -> M pyval) (b : body)
  : M pyval :=
  match b with
  | Ret v => ret v
  | Throw e => raise e
  | Proceed args kwargs k =>
      fun s =>
        match proceed args kwargs s with
        | None => None
        | Some (r, s') => run_body proceed call (k r) s'
        end
  | Call args kwargs k =>
      fun s =>
        match call args kwargs s with
        | None => None
        | Some (r, s') => run_body proceed call (k r) s'
        end
  | With manager block k =>
      fun s =>
        let '(manager', tls1) := __enter__ manager (_tls s) in
        match run_body proceed call block (set_tls s tls1) with
        | None => None
        | Some (r, s2) =>
            run_body proceed call (k r)
              (set_tls s2 (__exit__ manager' (_tls s2)))
        end
  end.

Definition bound_call (_func : Func) (cell : Context) (args : args_t)
  (kwargs : kwargs_t) : body :=
  if is_None (ctx_inst cell) && is_None (ctx_cls cell)
  then __call__ _func args kwargs
  else __get__ _func (ctx_inst cell) (ctx_cls cell) args kwargs.

(** [_Advice._invoke]. *)
Definition _invoke (proceed call : args_t -> kwargs_t -> M pyval)
  (_func : Func) (ctx : ctxref) (args : args_t) (kwargs : kwargs_t)
  : M pyval :=
  bind (deref ctx) (fun cell =>
  run_body proceed call (bound_call _func cell args kwargs)).

Definition with_result (result_ : pyval) (kwargs : kwargs_t) : M kwargs_t :=
  if existsb (fun kv => String.eqb (fst kv) "__result__") kwargs
  then raise (TypeError multiple_values)
  else ret (("__result__", result_) :: kwargs).

(** [_Advice.createChain]. *)
Fixpoint createChain (methods : list (Func * when_)) : _Advice :=
  match methods with
  | [] => _Stop
  | (method, when) :: rest => Link when method (createChain rest)
  end.

Definition eligible (methods : list lmwgm) (activelayers : list layer_)
  (currentlayer : layer_) : list (Func * when_) :=
  map (fun r => (lm_func r, lm_when r))
      (filter (fun r => layer_is (lm_layer r) currentlayer
                        && lm_guard r activelayers)
              methods).

Definition selected (methods : list lmwgm) (activelayers : list layer_)
  : list (Func * when_) :=
  flat_map (eligible methods activelayers) activelayers.

(** [cacheMethods]. *)
Definition cacheMethods (self : _LayeredMethodDescriptor)
  (activelayers : list layer_) : _Advice * _LayeredMethodDescriptor :=
  let methods := selected (_methods self) activelayers in
  let methods := rev methods in
  let result_ := createChain methods in
  (result_, {| _methods := _methods self;
               _cache := dict_set (_cache self) activelayers result_ |}).

Definition lookup_or_build (self : _LayeredMethodDescriptor)
  (activelayers : list layer_) : _Advice * _LayeredMethodDescriptor :=
  match dict_get (_cache self) activelayers with
  | Some advice => (advice, self)
  | None => cacheMethods self activelayers
  end.

(** [_LayeredMethodDescriptor.__call__] on the descriptor in the state,
    given how an advice object is called: the chain is looked up or built
    and cached before it runs. *)
Definition dispatch
  (call : _Advice -> ctxref -> args_t -> kwargs_t -> M pyval)
  (args : args_t) (kwargs : kwargs_t) : M pyval :=
  fun s =>
    let activelayers := _baseLayers s ++ activelayers (_tls s) in
    let '(advice, self') := lookup_or_build (layered s) activelayers in
    let '(context, s1) := new_context PyNone PyNone (set_layered s self') in
    call advice context args kwargs s1.

(** [advice(context, args, kwargs)] for the four advice classes. *)
Fixpoint Advice_call (fuel : nat) (self : _Advice) (ctx : ctxref)
  (args : args_t) (kwargs : kwargs_t) {struct fuel} : M pyval :=
  match fuel with
  | O => fun _ => None
  | S fuel' =>
      let proceed := proceed_with (Advice_call fuel') in
      let call := dispatch (Advice_call fuel') in
      match self with
      | _Stop => raise (Exception_ _Stop_msg)
      | Link _Before _func _nextFct =>
          bind (_invoke proceed call _func ctx args kwargs) (fun _ =>
          Advice_call fuel' _nextFct ctx args kwargs)
      | Link _Around _func _nextFct =>
          bind get_context (fun backup =>
          bind (set_context (Some ctx)) (fun _ =>
          bind (set_next ctx (Some _nextFct)) (fun _ =>
          bind (_invoke proceed call _func ctx args kwargs) (fun result_ =>
          bind (set_context backup) (fun _ =>
          ret result_)))))
      | Link _After _func _nextFct =>
          bind (Advice_call fuel' _nextFct ctx args kwargs) (fun result_ =>
          bind (with_result result_ kwargs) (fun kwargsWithResult =>
          _invoke proceed call _func ctx args kwargsWithResult))
      end
  end.

(** A call of the layered method. *)
Definition descriptor_call (fuel : nat) : args_t -> kwargs_t -> M pyval :=
  dispatch (Advice_call fuel).

(** [def first(x=None): return x] *)
Definition first : Func :=
  def "first" (fun args kwargs =>
    Ret (match args with x :: _ => x | [] => PyNone end)).




(** A body that makes no call of the layered method: it returns, raises,
    proceeds and opens layer scopes. *)
Fixpoint quiet (b : body) : Prop :=
  match b with
  | Ret _ | Throw _ => True
  | Proceed _ _ k => forall r, quiet (k r)
  | Call _ _ _ => False
  | With _ block k => quiet block /\ forall r, quiet (k r)
  end.

(** A function all of whose bodies are quiet, called directly or bound. *)
Definition quiet_Func (f : Func) : Prop :=
  (forall args kwargs, quiet (__call__ f args kwargs))
  /\ (forall inst cls args kwargs, quiet (__get__ f inst cls args kwargs)).

Fixpoint quiet_chain (a : _Advice) : Prop :=
  match a with
  | _Stop => True
  | Link _ f nxt => quiet_Func f /\ quiet_chain nxt
  end.

(** Every chain left in a context list is quiet. *)
Definition quiet_heap (s : State) : Prop :=
  forall c a, ctx_next (heap s c) = Some a -> quiet_chain a.





(** How a chain call may leave [_tls.context], from a state whose context
    lists are quiet: as it was when the call returns; as it was, or
    pointing at the call's own context, when it raises. *)
Definition context_after (ctx : ctxref) {A} (m : M A) : Prop :=
  forall s r s', quiet_heap s -> m s = Some (r, s') ->
    match r with
    | Return _ => context (_tls s') = context (_tls s)
    | Raise _ => context (_tls s') = context (_tls s)
                 \/ context (_tls s') = Some ctx
    end.

(** A computation that leaves [_tls.context] as it was. *)
Definition context_kept {A} (m : M A) : Prop :=
  forall s r s', quiet_heap s -> m s = Some (r, s') ->
    context (_tls s') = context (_tls s).

(** [def first(x): if x == 0: raise UserError(7) else: return x] *)
Definition picky : Func :=
  def "first" (fun args kwargs =>
    match args with
    | PyInt 0 :: _ => Throw (UserError 7)
    | x :: _ => Ret x
    | [] => Ret PyNone
    end).

(** Before advice that tries the method on 0 with its own layer switched
    off and ignores a failure:
    [def first(x): with inactiveLayer(L1): try: first(0) except: pass]. *)
Definition trying : Func :=
  def "first" (fun args kwargs =>
    With (inactiveLayer (Some 1))
      (Call [PyInt 0] [] (fun _ => Ret PyNone))
      (fun _ => Ret PyNone)).

(** A fresh thread with layer 1 active and a layered function, never
    called, with base [picky] and the before advice [trying] in layer 1. *)
Definition wary : State :=
  {| _baseLayers := [None];
     _tls := {| context := None; activelayers := [Some 1] |};
     heap := fun _ => mkContext PyNone PyNone None;
     heap_next := 0;
     layered := {| _methods := [mkRecord None picky _Around _true None;
                                mkRecord (Some 1) trying _Before _true
                                  (Some "first")];
                   _cache := [] |} |}.

(** The state one call of the layered function leaves [wary] in. *)
Definition tried : State :=
  match dispatch (Advice_call 6) [PyInt 5] [] wary with
  | Some (_, s') => s'
  | None => wary
  end.


End Reentrant.

(** * Properties *)

(** ** Identity, tuples and dicts *)

Lemma layer_is_eq (a b : layer_) : layer_is a b = true <-> a = b.
Proof.
  destruct a as [x|], b as [y|]; simpl; split; intro H;
    try discriminate; try reflexivity.
  - apply Nat.eqb_eq in H. now subst.
  - inversion H. apply Nat.eqb_refl.
Qed.

Lemma layer_is_refl (a : layer_) : layer_is a a = true.
Proof. now apply layer_is_eq. Qed.

Lemma tuple_eqb_eq (a b : list layer_) : tuple_eqb a b = true <-> a = b.
Proof.
  revert b. induction a as [|x a IH]; intros [|y b]; simpl;
    split; intro H; try discriminate; try reflexivity.
  - apply andb_true_iff in H as [H1 H2].
    apply layer_is_eq in H1. apply IH in H2. now subst.
  - inversion H; subst. apply andb_true_iff. split.
    + apply layer_is_refl.
    + now apply IH.
Qed.

Lemma tuple_eqb_refl (a : list layer_) : tuple_eqb a a = true.
Proof. now apply tuple_eqb_eq. Qed.

Lemma tuple_eqb_neq (a b : list layer_) : a <> b -> tuple_eqb a b = false.
Proof.
  intro H. destruct (tuple_eqb a b) eqn:E; [|reflexivity].
  apply tuple_eqb_eq in E. contradiction.
Qed.

Section DictFacts.
Context {V : Type}.
Implicit Types (d : dict V) (k : list layer_) (v : V).

Lemma dict_get_set_same d k v : dict_get (dict_set d k v) k = Some v.
Proof.
    induction d as [|[k0 w] d IH]; simpl.
    - now rewrite tuple_eqb_refl.
    - destruct (tuple_eqb k0 k) eqn:E; simpl; rewrite E; auto.
  Qed.

Lemma dict_get_set_other d k k' v :
    k <> k' -> dict_get (dict_set d k v) k' = dict_get d k'.
Proof.
    intro Hne. induction d as [|[k0 w] d IH]; simpl.
    - now rewrite tuple_eqb_neq.
    - destruct (tuple_eqb k0 k) eqn:E; simpl.
      + apply tuple_eqb_eq in E. subst k0.
        now rewrite tuple_eqb_neq.
      + now rewrite IH.
  Qed.

Lemma dict_set_miss d k v :
    dict_get d k = None -> dict_set d k v = d ++ [(k, v)].
Proof.
    induction d as [|[k0 w] d IH]; simpl; intro H; [reflexivity|].
    destruct (tuple_eqb k0 k); [discriminate|].
    now rewrite IH.
  Qed.

Lemma dict_pop_head d k v : dict_pop ((k, v) :: d) k = d.
Proof. simpl. now rewrite tuple_eqb_refl. Qed.
End DictFacts.

(** ** Scoped activation *)

Lemma tls_eta (tls : _MyTLS) :
  {| context := context tls; activelayers := activelayers tls |} = tls.
Proof. now destruct tls. Qed.

Lemma enter_activelayers (layers : list layer_) (tls : _MyTLS) :
  activelayers (snd (__enter__ (activeLayers layers) tls))
  = filter (fun l => negb (layer_in l layers)) (activelayers tls) ++ layers.
Proof. reflexivity. Qed.

Lemma enter_oldLayers (m : _LayerManager) (tls : _MyTLS) :
  _oldLayers (fst (__enter__ m tls)) = activelayers tls.
Proof. reflexivity. Qed.

Lemma enter_context (m : _LayerManager) (tls : _MyTLS) :
  context (snd (__enter__ m tls)) = context tls.
Proof. reflexivity. Qed.

(** A [with] block leaves the active layers as it found them, however the
    block ends and whatever it did to the thread's state. *)
Lemma with_restores {A} (m : _LayerManager) (block : M A) (s : State) :
  match with_ m block s with
  | Some (_, s') => activelayers (_tls s') = activelayers (_tls s)
  | None => True
  end.
Proof.
  unfold with_. simpl.
  destruct (block _) as [[r s2]|]; [reflexivity|exact I].
Qed.

(** C5. Entering [activeLayers(layers)] installs the previous active layers
    without the given ones, followed by the given ones; leaving the scope
    puts back the previous tuple whatever the thread's state has become;
    and entering A, entering B, leaving B, leaving A gives back the very
    thread state A was entered in, for any starting state. *)
Theorem activeLayers_scope (layers A B : list layer_) (tls : _MyTLS) :
  let '(m, tls1) := __enter__ (activeLayers layers) tls in
  activelayers tls1
    = filter (fun l => negb (layer_in l layers)) (activelayers tls) ++ layers
  /\ (forall tls2 : _MyTLS,
        activelayers (__exit__ m tls2) = activelayers tls)
  /\ (let '(mA, tlsA) := __enter__ (activeLayers A) tls in
      let '(mB, tlsB) := __enter__ (activeLayers B) tlsA in
      activelayers tlsB
        = filter (fun l => negb (layer_in l B))
            (filter (fun l => negb (layer_in l A)) (activelayers tls) ++ A)
          ++ B
      /\ __exit__ mB tlsB = tlsA
      /\ __exit__ mA (__exit__ mB tlsB) = tls).
Proof.
  destruct tls as [c old]. simpl. repeat split.
Qed.

(** ** What running advice leaves alone *)

Lemma same_layers_refl (s : State) : same_layers s s.
Proof. now split. Qed.

Lemma same_layers_trans (s1 s2 s3 : State) :
  same_layers s1 s2 -> same_layers s2 s3 -> same_layers s1 s3.
Proof. intros [H1 H2] [H3 H4]. split; congruence. Qed.

Lemma keeps_ret {A} (a : A) : keeps_layers (ret a).
Proof. intros s r s' H. inversion H. apply same_layers_refl. Qed.

Lemma keeps_raise {A} (e : exn) : keeps_layers (@raise A e).
Proof. intros s r s' H. inversion H. apply same_layers_refl. Qed.

Lemma keeps_bind {A B} (m : M A) (f : A -> M B) :
  keeps_layers m -> (forall a, keeps_layers (f a)) -> keeps_layers (bind m f).
Proof.
  intros Hm Hf s r s' H. unfold bind in H.
  destruct (m s) as [[[a|e] s1]|] eqn:E; try discriminate.
  - eapply same_layers_trans; [eapply Hm; eassumption|].
    eapply Hf; eassumption.
  - inversion H; subst. eapply Hm; eassumption.
Qed.

Lemma keeps_get_context : keeps_layers get_context.
Proof. intros s r s' H. inversion H. apply same_layers_refl. Qed.

Lemma keeps_set_context (c : option ctxref) : keeps_layers (set_context c).
Proof. intros s r s' H. inversion H. now split. Qed.

Lemma keeps_deref (ctx : ctxref) : keeps_layers (deref ctx).
Proof. intros s r s' H. inversion H. apply same_layers_refl. Qed.

Lemma keeps_set_next (ctx : ctxref) (a : option _Advice) :
  keeps_layers (set_next ctx a).
Proof. intros s r s' H. inversion H. now split. Qed.

Lemma keeps_with_result (v : pyval) (kwargs : kwargs_t) :
  keeps_layers (with_result v kwargs).
Proof.
  unfold with_result. destruct (existsb _ _).
  - apply keeps_raise.
  - apply keeps_ret.
Qed.

Create HintDb keeps.

#[local] Hint Resolve keeps_ret keeps_raise keeps_get_context
  keeps_set_context keeps_deref keeps_set_next keeps_with_result : keeps.

Lemma keeps_run_body (proceed : args_t -> kwargs_t -> M pyval) (b : body) :
  (forall args kwargs, keeps_layers (proceed args kwargs)) ->
  keeps_layers (run_body proceed b).
Proof.
  intro Hp. induction b as [v|e|args kwargs k IH]; simpl.
  - apply keeps_ret.
  - apply keeps_raise.
  - intros s r s' H.
    destruct (proceed args kwargs s) as [[r1 s1]|] eqn:E; [|discriminate].
    eapply same_layers_trans; [eapply Hp; eassumption|].
    eapply IH; eassumption.
Qed.

Lemma keeps_invoke proceed (f : Func) (ctx : ctxref) args kwargs :
  (forall args kwargs, keeps_layers (proceed args kwargs)) ->
  keeps_layers (_invoke proceed f ctx args kwargs).
Proof.
  intro Hp. unfold _invoke. apply keeps_bind; auto with keeps.
  intro cell. now apply keeps_run_body.
Qed.

Lemma keeps_proceed_with call args kwargs :
  (forall a ctx args kwargs, keeps_layers (call a ctx args kwargs)) ->
  keeps_layers (proceed_with call args kwargs).
Proof.
  intro Hc. unfold proceed_with. apply keeps_bind; auto with keeps.
  intros [ctx|]; auto with keeps.
  apply keeps_bind; auto with keeps.
  intro cell. destruct (ctx_next cell); auto with keeps.
Qed.

(** Running a chain changes neither the base layers nor the thread's active
    layers. *)
Lemma keeps_Advice_call (fuel : nat) :
  forall a ctx args kwargs, keeps_layers (Advice_call fuel a ctx args kwargs).
Proof.
  induction fuel as [|n IH]; intros a ctx args kwargs.
  - intros s r s' H. discriminate.
  - assert (Hp : forall args kwargs,
               keeps_layers (proceed_with (Advice_call n) args kwargs))
      by (intros; now apply keeps_proceed_with).
    destruct a as [|[| |] f nxt]; simpl.
    + apply keeps_raise.
    + apply keeps_bind; [now apply keeps_invoke|auto].
    + repeat (apply keeps_bind; [auto using keeps_invoke with keeps|intro]).
      apply keeps_ret.
    + apply keeps_bind; [apply IH|intro].
      apply keeps_bind; [auto with keeps|intro].
      now apply keeps_invoke.
Qed.

(** ** The dispatcher *)

Lemma descriptor_call_proxy fuel d args kwargs s :
  descriptor_call fuel d args kwargs s
  = proxy_call fuel d PyNone PyNone args kwargs s.
Proof. reflexivity. Qed.

Lemma cacheMethods_methods d key : _methods (snd (cacheMethods d key)) = _methods d.
Proof. reflexivity. Qed.

Lemma cacheMethods_chain d key :
  fst (cacheMethods d key) = createChain (rev (selected (_methods d) key)).
Proof. reflexivity. Qed.

Lemma cacheMethods_cache d key :
  _cache (snd (cacheMethods d key))
  = dict_set (_cache d) key (fst (cacheMethods d key)).
Proof. reflexivity. Qed.

Lemma proxy_call_unfold fuel d inst cls args kwargs s :
  proxy_call fuel d inst cls args kwargs s
  = (snd (lookup_or_build d (combination s)),
     Advice_call fuel (dispatched d s) (fst (new_context inst cls s))
       args kwargs (snd (new_context inst cls s))).
Proof.
  unfold proxy_call, dispatched, combination.
  destruct (lookup_or_build d _) as [advice d']. reflexivity.
Qed.

(** The frame of a call when the advice implementations use the library
    through [proceed] alone (the bodies of [body]: they return, raise or
    proceed, and may catch what [proceed] raises): the call leaves the
    thread's active layers (and the base layers) and the method's advice
    records as they were, however it ends; the cache is either unchanged
    or has exactly one more entry, appended under the combination of the
    call and holding the chain built for it. *)
Theorem call_frame (fuel : nat) (d : _LayeredMethodDescriptor)
  (inst cls : pyval) (args : args_t) (kwargs : kwargs_t) (s : State) :
  let key := _baseLayers s ++ activelayers (_tls s) in
  let '(d', out) := proxy_call fuel d inst cls args kwargs s in
  _methods d' = _methods d
  /\ (_cache d' = _cache d
      \/ (dict_get (_cache d) key = None
          /\ _cache d'
             = _cache d
               ++ [(key, createChain (rev (selected (_methods d) key)))]))
  /\ match out with
     | Some (_, s') =>
         activelayers (_tls s') = activelayers (_tls s)
         /\ _baseLayers s' = _baseLayers s
     | None => True
     end.
Proof.
  intro key. rewrite proxy_call_unfold. unfold dispatched, combination.
  fold key. unfold lookup_or_build.
  destruct (dict_get (_cache d) key) as [advice|] eqn:Hget; simpl.
  - split; [reflexivity|]. split; [now left|].
    destruct (Advice_call _ _ _ _ _ _) as [[r s']|] eqn:E; [|exact I].
    apply keeps_Advice_call in E. destruct E as [E1 E2]. simpl in *. auto.
  - split; [reflexivity|]. split.
    + right. split; [reflexivity|]. now apply dict_set_miss.
    + destruct (Advice_call _ _ _ _ _ _) as [[r s']|] eqn:E; [|exact I].
      apply keeps_Advice_call in E. destruct E as [E1 E2]. simpl in *. auto.
Qed.

(** ** Calls made by advice implementations

    The interpreter of [Reentrant], in which an implementation may call the
    layered method and open layer scopes.  As long as no implementation
    calls the method, running a chain leaves the descriptor and the layers
    alone. *)

Module ReentrantFacts.
Import Reentrant.





















End ReentrantFacts.




(** C8. Whatever chain sits in the cache under a combination [C1], a
    dispatch under a different combination [C2] does not run it: the lookup
    for [C2] and the whole call come out as if nothing were stored under
    [C1]; and [cacheMethods] stores the chain it builds under exactly the
    tuple it was given. *)
Theorem cache_key_exact (d : _LayeredMethodDescriptor) (C1 C2 : list layer_)
  (chain : _Advice) (fuel : nat) (inst cls : pyval) (args : args_t)
  (kwargs : kwargs_t) (s : State) :
  C1 <> C2 ->
  _baseLayers s ++ activelayers (_tls s) = C2 ->
  let d1 := {| _methods := _methods d;
               _cache := dict_set (_cache d) C1 chain |} in
  dict_get (_cache d1) C1 = Some chain
  /\ dict_get (_cache d1) C2 = dict_get (_cache d) C2
  /\ dict_get (_cache (snd (cacheMethods d C1))) C1
     = Some (createChain (rev (selected (_methods d) C1)))
  /\ fst (lookup_or_build d1 C2) = fst (lookup_or_build d C2)
  /\ snd (proxy_call fuel d1 inst cls args kwargs s)
     = snd (proxy_call fuel d inst cls args kwargs s).
Proof.
  intros Hne Hkey d1.
  assert (Hget : dict_get (_cache d1) C2 = dict_get (_cache d) C2)
    by (apply dict_get_set_other; exact Hne).
  assert (Hlook : fst (lookup_or_build d1 C2) = fst (lookup_or_build d C2)).
  { unfold lookup_or_build. rewrite Hget.
    destruct (dict_get (_cache d) C2); reflexivity. }
  repeat split.
  - apply dict_get_set_same.
  - exact Hget.
  - apply dict_get_set_same.
  - exact Hlook.
  - rewrite !proxy_call_unfold. unfold dispatched, combination.
    rewrite Hkey, Hlook. reflexivity.
Qed.

Lemma cache_key_exact_witness :
  [None] <> [None; Some Sample.L1]
  /\ dict_get
       (dict_set (_cache (createlayeredmethod (Some Sample.first) []))
          [None] (Link _Around Sample.boom _Stop))
       [None; Some Sample.L1] = None
  /\ snd (proxy_call 5
            {| _methods := _methods (createlayeredmethod (Some Sample.first) []);
               _cache := [([None], Link _Around Sample.boom _Stop)] |}
            PyNone PyNone [PyInt 4] []
            (with_layers initial_State [Some Sample.L1]))
     = snd (proxy_call 5 (createlayeredmethod (Some Sample.first) [])
              PyNone PyNone [PyInt 4] []
              (with_layers initial_State [Some Sample.L1])).
Proof.
  assert (Hne : [None] <> [None; Some Sample.L1]) by discriminate.
  split; [exact Hne|].
  pose proof (cache_key_exact (createlayeredmethod (Some Sample.first) [])
                [None] [None; Some Sample.L1]
                (Link _Around Sample.boom _Stop) 5 PyNone PyNone [PyInt 4] []
                (with_layers initial_State [Some Sample.L1])
                Hne eq_refl) as H.
  split; [exact (proj1 (proj2 H))|exact (proj2 (proj2 (proj2 (proj2 H))))].
Defined.

(** ** [proceed] and [_Around] *)

Lemma installed_cell ctx nxt s :
  heap (installed ctx nxt s) ctx
  = mkContext (ctx_inst (heap s ctx)) (ctx_cls (heap s ctx)) (Some nxt).
Proof. simpl. now rewrite Nat.eqb_refl. Qed.

Lemma bound_call_cell f c1 c2 args kwargs :
  ctx_inst c1 = ctx_inst c2 -> ctx_cls c1 = ctx_cls c2 ->
  bound_call f c1 args kwargs = bound_call f c2 args kwargs.
Proof. unfold bound_call. now intros -> ->. Qed.

Lemma Around_unfold n f nxt ctx args kwargs s :
  Advice_call (S n) (Link _Around f nxt) ctx args kwargs s
  = match run_body (proceed n) (bound_call f (heap s ctx) args kwargs)
            (installed ctx nxt s) with
    | None => None
    | Some (Return v, s2) =>
        Some (Return v,
              set_tls s2 {| context := context (_tls s);
                            activelayers := activelayers (_tls s2) |})
    | Some (Raise e, s2) => Some (Raise e, s2)
    end.
Proof.
  simpl. unfold bind, get_context, set_context, set_next, _invoke, deref,
    bind, ret. simpl. rewrite Nat.eqb_refl. fold (installed ctx nxt s).
  rewrite (bound_call_cell f _ (heap s ctx)) by reflexivity.
  unfold proceed.
  destruct (run_body _ _ _) as [[[v|e] s2]|]; reflexivity.
Qed.

Lemma proceed_installed n ctx nxt args kwargs s :
  proceed n args kwargs (installed ctx nxt s)
  = Advice_call n nxt ctx args kwargs (installed ctx nxt s).
Proof.
  unfold proceed, proceed_with, bind, get_context, deref. simpl.
  now rewrite Nat.eqb_refl.
Qed.

(** When the implementation returns, [_Around] puts the saved context
    back. *)
Lemma Around_return_restores n f nxt ctx args kwargs s v s' :
  Advice_call (S n) (Link _Around f nxt) ctx args kwargs s
  = Some (Return v, s') ->
  context (_tls s') = context (_tls s).
Proof.
  rewrite Around_unfold.
  destruct (run_body _ _ _) as [[[v1|e] s2]|]; intro H; inversion H.
  reflexivity.
Qed.

(** When the implementation raises straight away, the assignment that
    restores the context is skipped. *)
Lemma Around_raise_keeps_context n f nxt ctx args kwargs s e :
  bound_call f (heap s ctx) args kwargs = Throw e ->
  Advice_call (S n) (Link _Around f nxt) ctx args kwargs s
  = Some (Raise e, installed ctx nxt s).
Proof. intro H. rewrite Around_unfold, H. reflexivity. Qed.

(** The layers in action: with [L1] then [L2] active the advice of [L2]
    doubles what the advice of [L1] incremented; the other way round the
    increment comes last; without layers the base implementation answers
    alone.  Each call leaves the thread as it found it. *)
Example layered_calls :
  option_map fst
    (with_ (activeLayer (Some Sample.L1))
       (with_ (activeLayer (Some Sample.L2))
          (Sample.call 5 Sample.layered [PyInt 5] [])) initial_State)
  = Some (Return (PyInt 12))
  /\ option_map fst
       (with_ (activeLayer (Some Sample.L2))
          (with_ (activeLayer (Some Sample.L1))
             (Sample.call 5 Sample.layered [PyInt 5] [])) initial_State)
     = Some (Return (PyInt 11))
  /\ option_map fst (Sample.call 5 Sample.layered [PyInt 5] [] initial_State)
     = Some (Return (PyInt 5))
  /\ option_map (fun x => _tls (snd x))
       (with_ (activeLayer (Some Sample.L1))
          (with_ (activeLayer (Some Sample.L2))
             (Sample.call 5 Sample.layered [PyInt 5] [])) initial_State)
     = Some _MyTLS_init.
Proof. repeat split. Qed.

(** While the context slot of the thread is empty ([_tls.context] is
    [None], as [_MyTLS.__init__] leaves it and as every dispatch that
    returns leaves it again), [proceed] raises: subscripting [None] fails
    with Python's [TypeError]; no link is called and the state is
    untouched. *)
Theorem proceed_outside_dispatch (fuel : nat) (args : args_t)
  (kwargs : kwargs_t) (s : State) :
  context (_tls s) = None ->
  proceed fuel args kwargs s = Some (Raise (TypeError not_subscriptable), s).
Proof.
  intro H. unfold proceed, proceed_with, bind, get_context. now rewrite H.
Qed.

Lemma proceed_outside_dispatch_witness :
  context (_tls initial_State) = None
  /\ proceed 0 [PyInt 1] [] initial_State
     = Some (Raise (TypeError not_subscriptable), initial_State).
Proof.
  split; [reflexivity|].
  apply (proceed_outside_dispatch 0 [PyInt 1] [] initial_State).
  reflexivity.
Defined.

(** C7, on the code: a layered function with base [first] has around
    advice in [L1] that raises.  In a fresh thread [proceed] raises, as no
    dispatch is in progress.  After one call with [L1] active, which ends
    with the exception of the advice, no dispatch is in progress either,
    but the context slot still holds the context list of that call, whose
    next link is the base implementation: [proceed(9)] now runs it and
    returns 9 instead of raising. *)
Theorem proceed_after_failed_dispatch :
  proceed 3 [PyInt 9] [] (with_layers initial_State [Some Sample.L1])
  = Some (Raise (TypeError not_subscriptable),
          with_layers initial_State [Some Sample.L1])
  /\ option_map fst
       (snd (descriptor_call 3 Sample.tripping [PyInt 5] []
               (with_layers initial_State [Some Sample.L1])))
     = Some (Raise (UserError 7))
  /\ context (_tls Sample.tripped) = Some 0
  /\ ctx_next (heap Sample.tripped 0)
     = Some (Link _Around Sample.first _Stop)
  /\ option_map fst (proceed 3 [PyInt 9] [] Sample.tripped)
     = Some (Return (PyInt 9)).
Proof. repeat split. Qed.

(** Only the first [proceed] of an advice body is sure to find the next
    link of that advice in the context: the base implementation, itself an
    [_Around], has meanwhile stored its own next link, [_Stop], in the same
    context, and that is what a second [proceed] calls. *)
Example second_proceed_meets_Stop :
  Sample.result_of
    (descriptor_call 6 Sample.repeated [PyInt 5] []
       (with_layers initial_State [Some Sample.L1]))
  = Some (Raise (Exception_ _Stop_msg)).
Proof. reflexivity. Qed.

(** C3, as amended. When the body of an [_Around] advice, called with any
    arguments, starts by calling [proceed], that call runs the next link of
    the advice with exactly the arguments [proceed] itself was given;
    [proceed()] therefore runs it with no positional and no keyword
    argument.  The arguments the enclosing advice received play no
    part. *)
Theorem proceed_passes_its_own_arguments (n : nat) (f : Func)
  (nxt : _Advice) (ctx : ctxref) (args0 : args_t) (kwargs0 : kwargs_t)
  (args : args_t) (kwargs : kwargs_t) (k : result pyval -> body)
  (s : State) :
  bound_call f (heap s ctx) args0 kwargs0 = Proceed args kwargs k ->
  proceed n args kwargs (installed ctx nxt s)
  = Advice_call n nxt ctx args kwargs (installed ctx nxt s)
  /\ proceed n [] [] (installed ctx nxt s)
     = Advice_call n nxt ctx [] [] (installed ctx nxt s)
  /\ Advice_call (S n) (Link _Around f nxt) ctx args0 kwargs0 s
     = match Advice_call n nxt ctx args kwargs (installed ctx nxt s) with
       | None => None
       | Some (r, s1) =>
           match run_body (proceed n) (k r) s1 with
           | None => None
           | Some (Return v, s2) =>
               Some (Return v,
                     set_tls s2 {| context := context (_tls s);
                                   activelayers := activelayers (_tls s2) |})
           | Some (Raise e, s2) => Some (Raise e, s2)
           end
       end.
Proof.
  intro Hbody. split; [apply proceed_installed|].
  split; [apply proceed_installed|].
  rewrite Around_unfold, Hbody. simpl.
  rewrite proceed_installed.
  destruct (Advice_call n nxt ctx args kwargs _) as [[r s1]|]; reflexivity.
Qed.

Lemma proceed_passes_its_own_arguments_witness :
  bound_call Sample.bare (heap initial_State 0) [PyInt 5] [("x", PyInt 1)]
  = Proceed [] [] (reraise Ret)
  /\ proceed 2 [] [] (installed 0 (Link _Around Sample.probe _Stop)
                                initial_State)
     = Advice_call 2 (Link _Around Sample.probe _Stop) 0 [] []
         (installed 0 (Link _Around Sample.probe _Stop) initial_State).
Proof.
  split; [reflexivity|].
  exact (proj1 (proceed_passes_its_own_arguments 2 Sample.bare
                  (Link _Around Sample.probe _Stop) 0
                  [PyInt 5] [("x", PyInt 1)] [] [] (reraise Ret)
                  initial_State eq_refl)).
Defined.

(** C3, as stated, fails: the advice [bare] is called with one positional
    and one keyword argument and calls [proceed()]; the next link, which
    reports how many arguments reach it, reports none, while called with
    the arguments of the enclosing advice it reports two. *)
Lemma proceed_without_arguments_forwards_nothing :
  Sample.result_of
    (descriptor_call 4 Sample.probed [PyInt 5] [("x", PyInt 1)]
       (with_layers initial_State [Some Sample.L1]))
  = Some (Return (PyInt 0))
  /\ option_map fst
       (Advice_call 3 (Link _Around Sample.probe _Stop) 0
          [PyInt 5] [("x", PyInt 1)]
          (installed 0 (Link _Around Sample.probe _Stop)
             (with_layers initial_State [Some Sample.L1])))
     = Some (Return (PyInt 2))
  /\ Sample.result_of
       (descriptor_call 4 Sample.probed [PyInt 5] [("x", PyInt 1)]
          (with_layers initial_State [Some Sample.L1]))
     <> option_map fst
          (Advice_call 3 (Link _Around Sample.probe _Stop) 0
             [PyInt 5] [("x", PyInt 1)]
             (installed 0 (Link _Around Sample.probe _Stop)
                (with_layers initial_State [Some Sample.L1]))).
Proof.
  split; [reflexivity|]. split; [reflexivity|].
  intro H. vm_compute in H. discriminate H.
Qed.

(** C2, on the code: the base implementation of a layered function raises.
    Before the call the thread has no dispatch context; the exception
    leaves [_Around.__call__] before the saved context is put back, so
    after the call the thread still points at the context of the finished
    dispatch, and a later [proceed()] outside any dispatch calls the
    leftover next link instead of failing on a missing context. *)
Theorem Around_exception_leaves_context :
  context (_tls initial_State) = None
  /\ (exists s',
        snd (descriptor_call 3 Sample.failing [PyInt 1] [] initial_State)
        = Some (Raise (UserError 7), s')
        /\ context (_tls s') = Some 0
        /\ ctx_next (heap s' 0) = Some _Stop
        /\ option_map fst (proceed 1 [] [] s')
           = Some (Raise (Exception_ _Stop_msg))).
Proof.
  split; [reflexivity|].
  eexists. split; [reflexivity|]. repeat split.
Qed.

(** ** The shape of a built chain *)

Lemma links_createChain (ms : list (Func * when_)) :
  links (createChain ms) = ms.
Proof.
  induction ms as [|[f w] ms IH]; simpl; [reflexivity|now rewrite IH].
Qed.

Lemma rev_flat_map {A B} (f : A -> list B) (l : list A) :
  rev (flat_map f l) = flat_map (fun x => rev (f x)) (rev l).
Proof.
  induction l as [|x l IH]; simpl; [reflexivity|].
  rewrite rev_app_distr, IH, flat_map_app. simpl.
  now rewrite app_nil_r.
Qed.

Lemma links_cacheMethods d acts :
  links (fst (cacheMethods d acts))
  = flat_map (fun l => rev (eligible (_methods d) acts l)) (rev acts).
Proof.
  rewrite cacheMethods_chain, links_createChain. apply rev_flat_map.
Qed.

Lemma eligible_None methods acts :
  eligible methods acts None
  = map (fun r => (lm_func r, lm_when r)) (None_records methods acts).
Proof. reflexivity. Qed.

(** With [None] first in the combination, the innermost link is the first
    registered of the eligible records of layer [None]. *)
Lemma innermost_None_first d rest r0 more :
  None_records (_methods d) (None :: rest) = r0 :: more ->
  innermost (fst (cacheMethods d (None :: rest)))
  = Some (lm_func r0, lm_when r0).
Proof.
  intro H. unfold innermost.
  rewrite cacheMethods_chain, links_createChain, rev_involutive.
  unfold selected. simpl. rewrite eligible_None, H. reflexivity.
Qed.

(** A method made from a plain function has its base record first, so
    that record is innermost whatever advice follows it. *)
Lemma innermost_created b partial cache rest :
  innermost
    (fst (cacheMethods
            {| _methods := mkRecord None b _Around _true None :: partial;
               _cache := cache |} (None :: rest)))
  = Some (b, _Around).
Proof.
  apply (innermost_None_first
           {| _methods := mkRecord None b _Around _true None :: partial;
              _cache := cache |} rest
           (mkRecord None b _Around _true None)
           (None_records partial (None :: rest))).
  reflexivity.
Qed.

Lemma base_innermost_first d rest r0 more :
  None_records (_methods d) (None :: rest) = r0 :: more ->
  lm_when r0 = _Around ->
  base_innermost (_methods d) (None :: rest).
Proof.
  intros H Hw. exists r0.
  assert (Hin : In r0 (None_records (_methods d) (None :: rest)))
    by (rewrite H; now left).
  split; [exact Hin|]. split.
  - unfold None_records in Hin. apply filter_In in Hin as [_ Hok].
    apply andb_true_iff in Hok as [Hl _].
    unfold is_base. now rewrite Hl, Hw.
  - rewrite <- cacheMethods_chain with (d := d).
    now apply (innermost_None_first d rest r0 more).
Qed.

Lemma In_selected methods acts f w :
  In (f, w) (selected methods acts) <->
  exists r, In r methods /\ lm_func r = f /\ lm_when r = w
            /\ layer_in (lm_layer r) acts = true
            /\ lm_guard r acts = true.
Proof.
  unfold selected, eligible, layer_in. rewrite in_flat_map. split.
  - intros [l [Hl Hin]]. apply in_map_iff in Hin as [r [Hr Hin]].
    apply filter_In in Hin as [Hin Hok].
    apply andb_true_iff in Hok as [H1 H2].
    exists r. inversion Hr; subst. repeat split; auto.
    apply existsb_exists. now exists l.
  - intros [r [Hin [Hf [Hw [Hl Hg]]]]].
    apply existsb_exists in Hl as [l [Hl1 Hl2]].
    exists l. split; [assumption|].
    apply in_map_iff. exists r. split; [now subst|].
    apply filter_In. split; [assumption|].
    now rewrite Hl2, Hg.
Qed.

Lemma Stop_raises fuel ctx args kwargs s :
  Advice_call (S fuel) _Stop ctx args kwargs s
  = Some (Raise (Exception_ _Stop_msg), s).
Proof. reflexivity. Qed.

Lemma dispatched_fresh d s :
  cache_fresh_at d (combination s) ->
  dispatched d s
  = createChain (rev (selected (_methods d) (combination s))).
Proof.
  unfold cache_fresh_at, dispatched, lookup_or_build.
  destruct (dict_get _ _); simpl; auto.
Qed.

(** C6, as amended. When [None] is the first entry of the combination and
    the first registered of its eligible layer-[None] records is a base
    method, as it is for every method made from a plain function, the
    innermost link of the built chain is that base implementation; after
    the selected records every chain holds nothing but [_Stop], and
    calling [_Stop] raises the configuration error; a call whose
    combination selects no record, with nothing stale in the cache for it,
    raises that error. *)
Theorem base_innermost_else_Stop (d d0 : _LayeredMethodDescriptor)
  (rest : list layer_) (r0 : lmwgm) (more : list lmwgm) (b : Func)
  (partial : list lmwgm) (cache : dict _Advice) (fuel : nat)
  (inst cls : pyval) (args : args_t) (kwargs : kwargs_t) (s : State) :
  None_records (_methods d) (None :: rest) = r0 :: more ->
  lm_when r0 = _Around ->
  selected (_methods d0) (_baseLayers s ++ activelayers (_tls s)) = [] ->
  cache_fresh_at d0 (_baseLayers s ++ activelayers (_tls s)) ->
  innermost (fst (cacheMethods d (None :: rest)))
  = Some (lm_func r0, _Around)
  /\ is_base r0 = true
  /\ base_innermost (_methods d) (None :: rest)
  /\ innermost
       (fst (cacheMethods
               {| _methods := mkRecord None b _Around _true None :: partial;
                  _cache := cache |} (None :: rest)))
     = Some (b, _Around)
  /\ (forall acts, links (fst (cacheMethods d acts))
                   = rev (selected (_methods d) acts))
  /\ (forall ctx s1, Advice_call (S fuel) _Stop ctx args kwargs s1
                     = Some (Raise (Exception_ _Stop_msg), s1))
  /\ snd (proxy_call (S fuel) d0 inst cls args kwargs s)
     = Some (Raise (Exception_ _Stop_msg), snd (new_context inst cls s)).
Proof.
  intros Hfirst Hw Hnone Hfresh.
  assert (Hd : dispatched d0 s = _Stop).
  { rewrite dispatched_fresh by exact Hfresh.
    unfold combination. now rewrite Hnone. }
  split.
  { rewrite <- Hw. now apply (innermost_None_first d rest r0 more). }
  split.
  { assert (Hin : In r0 (None_records (_methods d) (None :: rest)))
      by (rewrite Hfirst; now left).
    apply filter_In in Hin as [_ Hok].
    apply andb_true_iff in Hok as [Hl _].
    unfold is_base. now rewrite Hl, Hw. }
  split; [now apply (base_innermost_first d rest r0 more)|].
  split; [apply innermost_created|].
  split; [intro acts; now rewrite cacheMethods_chain, links_createChain|].
  split; [intros; apply Stop_raises|].
  rewrite proxy_call_unfold, Hd. apply Stop_raises.
Qed.

Lemma base_innermost_else_Stop_witness :
  None_records (_methods Sample.counted) [None; Some Sample.G]
  = [mkRecord None Sample.first _Around _true None]
  /\ lm_when (mkRecord None Sample.first _Around _true None) = _Around
  /\ selected (_methods Sample.baseless)
       (_baseLayers initial_State ++ activelayers (_tls initial_State)) = []
  /\ cache_fresh_at Sample.baseless
       (_baseLayers initial_State ++ activelayers (_tls initial_State))
  /\ innermost (fst (cacheMethods Sample.counted [None; Some Sample.G]))
     = Some (Sample.first, _Around)
  /\ snd (proxy_call 1 Sample.baseless PyNone PyNone [PyInt 1] []
            initial_State)
     = Some (Raise (Exception_ _Stop_msg),
             snd (new_context PyNone PyNone initial_State)).
Proof.
  assert (H1 : None_records (_methods Sample.counted) [None; Some Sample.G]
               = [mkRecord None Sample.first _Around _true None])
    by reflexivity.
  assert (H2 : selected (_methods Sample.baseless)
                 (_baseLayers initial_State
                  ++ activelayers (_tls initial_State)) = [])
    by reflexivity.
  assert (H3 : cache_fresh_at Sample.baseless
                 (_baseLayers initial_State
                  ++ activelayers (_tls initial_State)))
    by (simpl; exact I).
  pose proof (base_innermost_else_Stop Sample.counted Sample.baseless
                [Some Sample.G] _ [] Sample.first [] [] 0 PyNone PyNone
                [PyInt 1] [] initial_State H1 eq_refl H2 H3) as H.
  split; [exact H1|]. split; [reflexivity|].
  split; [exact H2|]. split; [exact H3|].
  split; [exact (proj1 H)|].
  exact (proj2 (proj2 (proj2 (proj2 (proj2 (proj2 H)))))).
Defined.

(** C6, as stated, fails.  A scope declares [@before() def first] and
    then [@base def first]: with the initial base layers the chain of a
    call is the base implementation around the before advice, so the
    innermost link is the before advice although a base record is
    eligible.  And after [globalDeactivateLayer(None)],
    [globalActivateLayer(G)] and [globalActivateLayer(None)] the base
    layers are [(G, None)]: a method made from a plain function with
    around advice in [G] then has the base implementation outermost and
    the advice of [G] innermost. *)
Lemma base_outermost_after_regrouping :
  _methods Sample.announced
  = [mkRecord None Sample.first_log _Before _true (Some "first");
     mkRecord None Sample.first _Around _true None]
  /\ combination initial_State = [None]
  /\ dispatched Sample.announced initial_State
     = Link _Around Sample.first (Link _Before Sample.first_log _Stop)
  /\ ~ base_innermost (_methods Sample.announced) (combination initial_State)
  /\ fst (globalDeactivateLayer None initial_State) = Return []
  /\ _baseLayers Sample.regrouped = [Some Sample.G; None]
  /\ dispatched Sample.counted Sample.regrouped
     = Link _Around Sample.first (Link _Around Sample.incr _Stop)
  /\ ~ base_innermost (_methods Sample.counted)
         (combination Sample.regrouped).
Proof.
  do 3 (split; [reflexivity|]).
  split.
  { intros [r [Hin [Hb Heq]]].
    destruct Hin as [<-|[<-|[]]]; [discriminate Hb|].
    apply (f_equal (option_map snd)) in Heq. discriminate Heq. }
  do 3 (split; [reflexivity|]).
  intros [r [Hin [Hb Heq]]].
  destruct Hin as [<-|[]].
  apply (f_equal (option_map (fun p => __name__ (fst p)))) in Heq.
  vm_compute in Heq. discriminate Heq.
Qed.

(** C4, as amended. For every method and every combination the links of
    the built chain are the groups of eligible records in reverse
    combination order, each group in reverse registration order: the
    records of the last entry are outermost; and when [None] is the first
    entry of the combination and the first registered of its eligible
    layer-[None] records is a base method, as for every method made from
    a plain function, the innermost link is that base implementation.
    With [L1] then [L2] active and around advice on both, the chain is the
    advice of [L2] around the advice of [L1] around the base
    implementation. *)
Theorem chain_follows_combination (d : _LayeredMethodDescriptor)
  (acts pre rest : list layer_) (last_ : layer_) (r0 : lmwgm)
  (more partial : list lmwgm) (L1 L2 : Layer) (base a1 a2 : Func)
  (cache : dict _Advice) :
  L1 <> L2 ->
  None_records (_methods d) (None :: rest) = r0 :: more ->
  lm_when r0 = _Around ->
  links (fst (cacheMethods d acts))
  = flat_map (fun l => rev (eligible (_methods d) acts l)) (rev acts)
  /\ links (fst (cacheMethods d (pre ++ [last_])))
     = rev (eligible (_methods d) (pre ++ [last_]) last_)
       ++ flat_map (fun l => rev (eligible (_methods d) (pre ++ [last_]) l))
            (rev pre)
  /\ innermost (fst (cacheMethods d (None :: rest)))
     = Some (lm_func r0, _Around)
  /\ base_innermost (_methods d) (None :: rest)
  /\ innermost
       (fst (cacheMethods
               {| _methods := mkRecord None base _Around _true None
                              :: partial;
                  _cache := cache |} (None :: rest)))
     = Some (base, _Around)
  /\ snd (__enter__ (activeLayer (Some L2))
            (snd (__enter__ (activeLayer (Some L1)) _MyTLS_init)))
     = {| context := None; activelayers := [Some L1; Some L2] |}
  /\ fst (cacheMethods
            {| _methods := [mkRecord None base _Around _true None;
                            mkRecord (Some L1) a1 _Around _true None;
                            mkRecord (Some L2) a2 _Around _true None];
               _cache := cache |}
            [None; Some L1; Some L2])
     = Link _Around a2 (Link _Around a1 (Link _Around base _Stop)).
Proof.
  intros Hne Hfirst Hw.
  assert (E12 : Nat.eqb L1 L2 = false) by now apply Nat.eqb_neq.
  assert (E21 : Nat.eqb L2 L1 = false)
    by (apply Nat.eqb_neq; intro; now apply Hne).
  split; [apply links_cacheMethods|].
  split.
  { rewrite links_cacheMethods, rev_app_distr. reflexivity. }
  split.
  { rewrite <- Hw. now apply (innermost_None_first d rest r0 more). }
  split; [now apply (base_innermost_first d rest r0 more)|].
  split; [apply innermost_created|].
  split.
  { unfold __enter__, activeLayer, _getActiveLayers. simpl.
    now rewrite E12. }
  unfold cacheMethods, selected, eligible. simpl.
  rewrite !Nat.eqb_refl, E12, E21. reflexivity.
Qed.

Lemma chain_follows_combination_witness :
  Sample.L1 <> Sample.L2
  /\ None_records (_methods Sample.stacked) [None; Some Sample.L1]
     = [mkRecord None Sample.first _Around _true None]
  /\ lm_when (mkRecord None Sample.first _Around _true None) = _Around
  /\ links (fst (cacheMethods Sample.stacked
                   [None; Some Sample.G; Some Sample.L1]))
     = [(Sample.incr, _Around); (Sample.twice, _Around);
        (Sample.first, _Around)]
  /\ innermost (fst (cacheMethods Sample.stacked [None; Some Sample.L1]))
     = Some (Sample.first, _Around).
Proof.
  assert (H1 : Sample.L1 <> Sample.L2) by discriminate.
  assert (H2 : None_records (_methods Sample.stacked) [None; Some Sample.L1]
               = [mkRecord None Sample.first _Around _true None])
    by reflexivity.
  pose proof (chain_follows_combination Sample.stacked
                [None; Some Sample.G; Some Sample.L1] [] [Some Sample.L1]
                None _ [] [] Sample.L1 Sample.L2 Sample.first Sample.incr
                Sample.twice [] H1 H2 eq_refl) as H.
  split; [exact H1|]. split; [exact H2|]. split; [reflexivity|].
  split; [exact (proj1 H)|].
  exact (proj1 (proj2 (proj2 H))).
Defined.

(** C4, as stated, fails.  A scope declares [@before() def first],
    [@base def first] and [@around(L1) def first]: with [L1] active the
    advice of [L1] is outermost, but the base implementation is in the
    middle and the before advice innermost.  And with the base layers
    regrouped to [(G, None)] and [L1] active, the chain of a method with
    advice in [G] and in [L1] has the base implementation in the middle
    and the advice of [G] innermost. *)
Lemma base_in_the_middle_after_regrouping :
  _methods Sample.announced_layered
  = [mkRecord None Sample.first_log _Before _true (Some "first");
     mkRecord None Sample.first _Around _true None;
     mkRecord (Some Sample.L1) Sample.first_incr _Around _true
       (Some "first")]
  /\ combination (with_layers initial_State [Some Sample.L1])
     = [None; Some Sample.L1]
  /\ links (dispatched Sample.announced_layered
              (with_layers initial_State [Some Sample.L1]))
     = [(Sample.first_incr, _Around); (Sample.first, _Around);
        (Sample.first_log, _Before)]
  /\ ~ base_innermost (_methods Sample.announced_layered)
         (combination (with_layers initial_State [Some Sample.L1]))
  /\ combination (with_layers Sample.regrouped [Some Sample.L1])
     = [Some Sample.G; None; Some Sample.L1]
  /\ links (dispatched Sample.stacked
              (with_layers Sample.regrouped [Some Sample.L1]))
     = [(Sample.incr, _Around); (Sample.first, _Around);
        (Sample.twice, _Around)]
  /\ ~ base_innermost (_methods Sample.stacked)
         (combination (with_layers Sample.regrouped [Some Sample.L1])).
Proof.
  do 3 (split; [reflexivity|]).
  split.
  { intros [r [Hin [Hb Heq]]].
    destruct Hin as [<-|[<-|[]]]; [discriminate Hb|].
    apply (f_equal (option_map snd)) in Heq. discriminate Heq. }
  do 2 (split; [reflexivity|]).
  intros [r [Hin [Hb Heq]]].
  destruct Hin as [<-|[]].
  apply (f_equal (option_map (fun p => __name__ (fst p)))) in Heq.
  vm_compute in Heq. discriminate Heq.
Qed.

(** C10. A call that misses the cache hands every guard the tuple made of
    the base layers followed by the thread's active layers: the chain it
    runs is the one [cacheMethods] builds for that tuple, which holds
    exactly the records whose layer occurs in the tuple and whose guard
    accepts the tuple, and the descriptor it leaves has that chain stored
    under that tuple.  With the base layers of a freshly imported module
    the tuple, and so the cache key, is [None] followed by the active
    layers. *)
Theorem guards_see_full_combination (fuel : nat)
  (d : _LayeredMethodDescriptor) (inst cls : pyval) (args : args_t)
  (kwargs : kwargs_t) (s : State) (f : Func) (w : when_) :
  dict_get (_cache d) (_baseLayers s ++ activelayers (_tls s)) = None ->
  let acts := _baseLayers s ++ activelayers (_tls s) in
  let chain := fst (cacheMethods d acts) in
  proxy_call fuel d inst cls args kwargs s
  = ({| _methods := _methods d; _cache := _cache d ++ [(acts, chain)] |},
     Advice_call fuel chain (heap_next s) args kwargs
       (snd (new_context inst cls s)))
  /\ descriptor_call fuel d args kwargs s
     = ({| _methods := _methods d; _cache := _cache d ++ [(acts, chain)] |},
        Advice_call fuel chain (heap_next s) args kwargs
          (snd (new_context PyNone PyNone s)))
  /\ (In (f, w) (links chain) <->
      exists r, In r (_methods d) /\ lm_func r = f /\ lm_when r = w
                /\ layer_in (lm_layer r) acts = true
                /\ lm_guard r acts = true)
  /\ _baseLayers initial_State = [None]
  /\ (forall tls : _MyTLS,
        dict_get (_cache d) (None :: activelayers tls) = None ->
        map fst (_cache (fst (proxy_call fuel d inst cls args kwargs
                                (set_tls initial_State tls))))
        = map fst (_cache d) ++ [None :: activelayers tls]).
Proof.
  intros Hmiss acts chain.
  assert (Hcall : forall i c,
    proxy_call fuel d i c args kwargs s
    = ({| _methods := _methods d; _cache := _cache d ++ [(acts, chain)] |},
       Advice_call fuel chain (heap_next s) args kwargs
         (snd (new_context i c s)))).
  { intros i c. unfold proxy_call, lookup_or_build. fold acts.
    unfold acts at 1. rewrite Hmiss. unfold cacheMethods. cbn [fst snd].
    cbn [new_context]. f_equal. f_equal. now apply dict_set_miss. }
  split; [apply Hcall|]. split; [apply Hcall|]. split.
  { unfold chain. rewrite cacheMethods_chain, links_createChain, <- in_rev.
    apply In_selected. }
  split; [reflexivity|].
  intros tls Hm. rewrite proxy_call_unfold. cbn [fst].
  unfold combination, lookup_or_build.
  change (_baseLayers (set_tls initial_State tls)
          ++ activelayers (_tls (set_tls initial_State tls)))
    with (None :: activelayers tls).
  rewrite Hm, cacheMethods_cache, dict_set_miss by exact Hm.
  rewrite map_app. reflexivity.
Qed.

Lemma guards_see_full_combination_witness :
  dict_get (_cache Sample.guarded)
    (_baseLayers (with_layers initial_State [Some Sample.L1])
     ++ activelayers (_tls (with_layers initial_State [Some Sample.L1])))
  = None
  /\ fst (proxy_call 5 Sample.guarded PyNone PyNone [PyInt 5] []
            (with_layers initial_State [Some Sample.L1]))
     = {| _methods := _methods Sample.guarded;
          _cache := [([None; Some Sample.L1],
                      Link _Around Sample.incr
                        (Link _Around Sample.first _Stop))] |}
  /\ Sample.None_and_one [None; Some Sample.L1] = true
  /\ Sample.None_and_one [Some Sample.L1] = false
  /\ Sample.result_of
       (descriptor_call 5 Sample.guarded [PyInt 5] []
          (with_layers initial_State [Some Sample.L1]))
     = Some (Return (PyInt 6)).
Proof.
  split; [reflexivity|].
  split; [|do 2 (split; [reflexivity|]); reflexivity].
  exact (f_equal fst
           (proj1 (guards_see_full_combination 5 Sample.guarded PyNone PyNone
                     [PyInt 5] [] (with_layers initial_State [Some Sample.L1])
                     Sample.incr _Around eq_refl))).
Defined.

(** ** Registration and the cache *)

Lemma _clearCache_empty methods :
  _clearCache {| _methods := methods; _cache := [] |}
  = Some (Return tt, {| _methods := methods; _cache := [] |}).
Proof. reflexivity. Qed.

(** On a cache that is not empty the loop removes the first key and then
    fails: the other entries stay. *)
Lemma _clearCache_nonempty methods key chain rest :
  _clearCache {| _methods := methods; _cache := (key, chain) :: rest |}
  = Some (Raise (RuntimeError changed_size),
          {| _methods := methods; _cache := rest |}).
Proof.
  unfold _clearCache. cbn [_cache _methods List.length _clearCache_loop].
  rewrite Nat.eqb_refl. cbn [nth_error].
  rewrite dict_pop_head.
  cbn [_clearCache_loop].
  replace (Nat.eqb (List.length rest) (S (List.length rest))) with false
    by (symmetry; apply Nat.eqb_neq; lia).
  reflexivity.
Qed.

Lemma registerMethod_cold d f when l guard methodName :
  _cache d = [] ->
  exists name,
    registerMethod d f when l guard methodName
    = Some (Return tt,
            {| _methods := _methods d ++ [mkRecord l f when guard (Some name)];
               _cache := [] |}).
Proof.
  intro H. eexists. unfold registerMethod, setMethods, getMethods.
  rewrite H. apply _clearCache_empty.
Qed.

Lemma registerMethod_warm d f when l guard methodName key chain rest :
  _cache d = (key, chain) :: rest ->
  exists name,
    registerMethod d f when l guard methodName
    = Some (Raise (RuntimeError changed_size),
            {| _methods := _methods d ++ [mkRecord l f when guard (Some name)];
               _cache := rest |}).
Proof.
  intro H. eexists. unfold registerMethod, setMethods, getMethods.
  rewrite H. apply _clearCache_nonempty.
Qed.

(** C1, on the code: a layered function has been called with no layer
    active and with [L1] active, so its cache holds two chains.
    Registering around advice for [L1] then raises [RuntimeError] out of
    [_clearCache] after only the first cached chain was removed: the new
    record is in the advice list, the chain cached for [(None, L1)] is
    still there, and a call with [L1] active runs it and returns the base
    result 5 where the updated advice gives 6.  [unregisterMethod] raises
    [AttributeError] and changes nothing. *)
Theorem registration_leaves_stale_chain :
  map fst (_cache Sample.warmed) = [[None]; [None; Some Sample.L1]]
  /\ option_map fst
       (registerMethod Sample.warmed Sample.incr _Around (Some Sample.L1)
          _true "")
     = Some (Raise (RuntimeError changed_size))
  /\ map lm_layer (_methods Sample.extended) = [None; Some Sample.L1]
  /\ dict_get (_cache Sample.extended) [None; Some Sample.L1]
     = Some (Link _Around Sample.first _Stop)
  /\ Sample.result_of
       (descriptor_call 4 Sample.extended [PyInt 5] []
          (with_layers initial_State [Some Sample.L1]))
     = Some (Return (PyInt 5))
  /\ Sample.result_of
       (descriptor_call 4
          {| _methods := _methods Sample.extended; _cache := [] |}
          [PyInt 5] [] (with_layers initial_State [Some Sample.L1]))
     = Some (Return (PyInt 6))
  /\ unregisterMethod Sample.extended Sample.incr (Some Sample.L1)
     = Some (Raise (AttributeError
          "'_LayeredMethodDescriptor' object has no attribute '_descriptor'"),
             Sample.extended).
Proof. repeat split. Qed.

(** * Further properties *)

(** ** Layer scopes *)

Lemma layer_in_In (x : layer_) (xs : list layer_) :
  layer_in x xs = true <-> In x xs.
Proof.
  unfold layer_in. rewrite existsb_exists. split.
  - intros [y [Hy E]]. apply layer_is_eq in E. now subst.
  - intro H. exists x. split; [assumption|apply layer_is_refl].
Qed.

Lemma layer_in_app (x : layer_) (xs ys : list layer_) :
  layer_in x (xs ++ ys) = layer_in x xs || layer_in x ys.
Proof. apply existsb_app. Qed.

Lemma layer_in_filter (x : layer_) (q : layer_ -> bool) (xs : list layer_) :
  layer_in x (filter q xs) = layer_in x xs && q x.
Proof.
  unfold layer_in.
  induction xs as [|a xs IH]; simpl; [reflexivity|].
  destruct (q a) eqn:Q; simpl; rewrite IH;
    destruct (layer_is x a) eqn:E; simpl; try reflexivity;
    apply layer_is_eq in E; subst a; rewrite Q.
  - reflexivity.
  - now rewrite andb_false_r.
Qed.

Lemma filter_out_self (ls : list layer_) :
  filter (fun l => negb (layer_in l ls)) ls = [].
Proof.
  assert (H : forall xs, (forall x, In x xs -> In x ls) ->
                         filter (fun l => negb (layer_in l ls)) xs = []).
  { induction xs as [|a xs IH]; intro Hsub; simpl; [reflexivity|].
    assert (Ha : layer_in a ls = true)
      by (apply layer_in_In, Hsub; now left).
    rewrite Ha. simpl. apply IH. intros x Hx. apply Hsub. now right. }
  apply H. auto.
Qed.

Lemma filter_twice {A} (q : A -> bool) (xs : list A) :
  filter q (filter q xs) = filter q xs.
Proof.
  induction xs as [|a xs IH]; simpl; [reflexivity|].
  destruct (q a) eqn:E; simpl; [rewrite E, IH|]; auto.
Qed.

(** X1. Entering a scope that activates layers which an enclosing scope has
    just activated the same way installs the same tuple again. *)
Theorem activation_idempotent (layers : list layer_) (tls : _MyTLS) :
  let tls1 := snd (__enter__ (activeLayers layers) tls) in
  activelayers (snd (__enter__ (activeLayers layers) tls1))
  = activelayers tls1.
Proof.
  simpl. unfold _getActiveLayers. simpl.
  rewrite filter_app, filter_twice, filter_out_self. now rewrite app_nil_r.
Qed.

(** X2. Which layers are active inside a scope: inside [activeLayers] the
    layers that were active or are given; inside [inactiveLayers] the
    layers that were active and are not given. *)
Theorem scope_membership (layers : list layer_) (tls : _MyTLS) (x : layer_) :
  layer_in x (activelayers (snd (__enter__ (activeLayers layers) tls)))
  = layer_in x (activelayers tls) || layer_in x layers
  /\ layer_in x (activelayers (snd (__enter__ (inactiveLayers layers) tls)))
     = layer_in x (activelayers tls) && negb (layer_in x layers).
Proof.
  simpl. unfold _getActiveLayers. simpl. split.
  - rewrite layer_in_app, layer_in_filter.
    destruct (layer_in x (activelayers tls)), (layer_in x layers);
      reflexivity.
  - apply layer_in_filter.
Qed.

(** X3. Deactivating layers none of which is active installs the tuple that
    was there, and leaving the scope keeps it. *)
Theorem deactivation_of_inactive (layers : list layer_) (tls : _MyTLS) :
  forallb (fun l => negb (layer_in l layers)) (activelayers tls) = true ->
  snd (__enter__ (inactiveLayers layers) tls) = tls
  /\ __exit__ (fst (__enter__ (inactiveLayers layers) tls)) tls = tls.
Proof.
  intro H. destruct tls as [c old]. simpl in *.
  unfold _getActiveLayers. simpl.
  rewrite (forallb_filter_id _ _ H). split; reflexivity.
Qed.

Lemma deactivation_of_inactive_witness :
  forallb (fun l => negb (layer_in l [Some Sample.L2]))
    (activelayers (mkTLS None [Some Sample.L1])) = true
  /\ snd (__enter__ (inactiveLayers [Some Sample.L2])
            (mkTLS None [Some Sample.L1]))
     = mkTLS None [Some Sample.L1].
Proof.
  split; [reflexivity|].
  exact (proj1 (deactivation_of_inactive [Some Sample.L2]
                  (mkTLS None [Some Sample.L1]) eq_refl)).
Defined.

(** X4. A tuple of active layers without repetition stays so through both
    kinds of scope: through [inactiveLayers] whatever layers are given,
    through [activeLayers] provided the layers given are not repeated
    either. *)
Theorem scopes_keep_layers_distinct (layers layers' : list layer_)
  (tls : _MyTLS) :
  NoDup (activelayers tls) ->
  (NoDup layers ->
   NoDup (activelayers (snd (__enter__ (activeLayers layers) tls))))
  /\ NoDup (activelayers (snd (__enter__ (inactiveLayers layers') tls))).
Proof.
  intro Hold. simpl. unfold _getActiveLayers. simpl. split.
  - intro Hnew. apply NoDup_app; [now apply NoDup_filter|assumption|].
    intros a Ha Hin. apply filter_In in Ha as [_ Ha].
    apply layer_in_In in Hin. rewrite Hin in Ha. discriminate.
  - now apply NoDup_filter.
Qed.

Lemma scopes_keep_layers_distinct_witness :
  NoDup (activelayers (mkTLS None [Some Sample.L1; Some Sample.L2]))
  /\ NoDup [Some Sample.L1; Some Sample.G]
  /\ NoDup (activelayers
              (snd (__enter__ (activeLayers [Some Sample.L1; Some Sample.G])
                      (mkTLS None [Some Sample.L1; Some Sample.L2]))))
  /\ NoDup (activelayers
              (snd (__enter__
                      (inactiveLayers [Some Sample.L1; Some Sample.L1])
                      (mkTLS None [Some Sample.L1; Some Sample.L2])))).
Proof.
  assert (H1 : NoDup (activelayers
                        (mkTLS None [Some Sample.L1; Some Sample.L2]))).
  { simpl. repeat constructor; simpl; intuition discriminate. }
  assert (H2 : NoDup [Some Sample.L1; Some Sample.G]).
  { repeat constructor; simpl; intuition discriminate. }
  pose proof (scopes_keep_layers_distinct [Some Sample.L1; Some Sample.G]
                [Some Sample.L1; Some Sample.L1]
                (mkTLS None [Some Sample.L1; Some Sample.L2]) H1) as H.
  split; [exact H1|]. split; [exact H2|].
  split; [exact (proj1 H H2)|exact (proj2 H)].
Defined.

(** X5. Of two nested scopes over the same layers the inner one decides:
    deactivating inside an activation leaves the layers inactive, and
    activating inside a deactivation leaves them active and last, as if
    the outer scope were not there. *)
Theorem inner_scope_decides (layers : list layer_) (tls : _MyTLS) :
  activelayers
    (snd (__enter__ (inactiveLayers layers)
            (snd (__enter__ (activeLayers layers) tls))))
  = activelayers (snd (__enter__ (inactiveLayers layers) tls))
  /\ activelayers
       (snd (__enter__ (activeLayers layers)
               (snd (__enter__ (inactiveLayers layers) tls))))
     = activelayers (snd (__enter__ (activeLayers layers) tls)).
Proof.
  simpl. unfold _getActiveLayers. simpl. split.
  - rewrite filter_app, filter_twice, filter_out_self. apply app_nil_r.
  - now rewrite filter_twice.
Qed.

(** X6. One manager object entered again while it is already entered keeps
    only the layers saved at the second entry: after both exits the
    thread is left with the tuple the first entry installed, not with the
    tuple it started from. *)
Theorem manager_entered_twice (layers : list layer_) (tls : _MyTLS) :
  let '(m1, tls1) := __enter__ (activeLayers layers) tls in
  let '(m2, tls2) := __enter__ m1 tls1 in
  __exit__ m2 (__exit__ m2 tls2) = tls1
  /\ activelayers tls1
     = filter (fun l => negb (layer_in l layers)) (activelayers tls)
       ++ layers.
Proof. destruct tls as [c old]. simpl. split; reflexivity. Qed.

(** ** The advice classes *)

Lemma Before_unfold n f nxt ctx args kwargs s :
  Advice_call (S n) (Link _Before f nxt) ctx args kwargs s
  = match run_body (proceed n) (bound_call f (heap s ctx) args kwargs) s with
    | None => None
    | Some (Return _, s1) => Advice_call n nxt ctx args kwargs s1
    | Some (Raise e, s1) => Some (Raise e, s1)
    end.
Proof.
  simpl. unfold bind, _invoke, deref, bind, proceed. simpl.
  destruct (run_body _ _ _) as [[[v|e] s1]|]; reflexivity.
Qed.

Lemma After_unfold n f nxt ctx args kwargs s :
  Advice_call (S n) (Link _After f nxt) ctx args kwargs s
  = match Advice_call n nxt ctx args kwargs s with
    | None => None
    | Some (Return v, s1) =>
        if existsb (fun kv : string * pyval =>
                      String.eqb (fst kv) "__result__") kwargs
        then Some (Raise (TypeError multiple_values), s1)
        else run_body (proceed n)
               (bound_call f (heap s1 ctx) args
                  (("__result__", v) :: kwargs)) s1
    | Some (Raise e, s1) => Some (Raise e, s1)
    end.
Proof.
  simpl. unfold bind at 1.
  destruct (Advice_call n nxt ctx args kwargs s) as [[[v|e] s1]|];
    try reflexivity.
  unfold with_result, bind.
  destruct (existsb _ kwargs); [reflexivity|].
  unfold ret, _invoke, bind, deref, proceed. simpl.
  destruct (run_body _ _ _) as [[[w|e] s2]|]; reflexivity.
Qed.

(** X7. What a before advice returns is dropped: when its implementation
    returns, whatever the value, the link is the rest of the chain called
    with the same arguments; when it raises, the rest of the chain is not
    called. *)
Theorem Before_result_dropped (n : nat) (f g : Func) (nxt : _Advice)
  (ctx : ctxref) (args : args_t) (kwargs : kwargs_t) (s : State)
  (v : pyval) (e : exn) :
  bound_call f (heap s ctx) args kwargs = Ret v ->
  bound_call g (heap s ctx) args kwargs = Throw e ->
  Advice_call (S n) (Link _Before f nxt) ctx args kwargs s
  = Advice_call n nxt ctx args kwargs s
  /\ Advice_call (S n) (Link _Before g nxt) ctx args kwargs s
     = Some (Raise e, s).
Proof.
  intros Hf Hg. rewrite !Before_unfold, Hf, Hg. split; reflexivity.
Qed.

Lemma Before_result_dropped_witness :
  bound_call Sample.log (heap initial_State 0) [PyInt 3] [] = Ret PyNone
  /\ bound_call Sample.boom (heap initial_State 0) [PyInt 3] []
     = Throw (UserError 7)
  /\ Advice_call 3 (Link _Before Sample.log (Link _Around Sample.first _Stop))
       0 [PyInt 3] [] initial_State
     = Advice_call 2 (Link _Around Sample.first _Stop) 0 [PyInt 3] []
         initial_State.
Proof.
  split; [reflexivity|]. split; [reflexivity|].
  exact (proj1 (Before_result_dropped 2 Sample.log Sample.boom
                  (Link _Around Sample.first _Stop) 0 [PyInt 3] []
                  initial_State PyNone (UserError 7) eq_refl eq_refl)).
Defined.

(** X8. An after advice runs once the rest of the chain has returned: its
    implementation gets the arguments of the call and, ahead of the
    keyword arguments, the result under [__result__], and what it returns
    is the result of the link.  When the rest of the chain raises, the
    implementation is not called. *)
Theorem After_gets_result (n : nat) (f : Func) (nxt : _Advice)
  (ctx : ctxref) (args : args_t) (kwargs : kwargs_t) (s s1 : State)
  (v w : pyval) :
  existsb (fun kv : string * pyval => String.eqb (fst kv) "__result__")
    kwargs = false ->
  Advice_call n nxt ctx args kwargs s = Some (Return v, s1) ->
  bound_call f (heap s1 ctx) args (("__result__", v) :: kwargs) = Ret w ->
  Advice_call (S n) (Link _After f nxt) ctx args kwargs s
  = Some (Return w, s1)
  /\ (forall nxt' e s2 s3,
        Advice_call n nxt' ctx args kwargs s2 = Some (Raise e, s3) ->
        Advice_call (S n) (Link _After f nxt') ctx args kwargs s2
        = Some (Raise e, s3)).
Proof.
  intros Hk Hn Hf. split.
  - rewrite After_unfold, Hn, Hk, Hf. reflexivity.
  - intros nxt' e s2 s3 H. rewrite After_unfold, H. reflexivity.
Qed.

Lemma After_gets_result_witness :
  existsb (fun kv : string * pyval => String.eqb (fst kv) "__result__")
    [] = false
  /\ Advice_call 3 (Link _After Sample.negate
                      (Link _Around Sample.first _Stop))
       0 [PyInt 3] [] initial_State
     = Some (Return (PyInt (-3)),
             set_tls (installed 0 _Stop initial_State)
               {| context := None; activelayers := [] |})
  /\ Advice_call 3 (Link _After Sample.negate
                      (Link _Around Sample.boom _Stop))
       0 [PyInt 3] [] initial_State
     = Some (Raise (UserError 7), installed 0 _Stop initial_State).
Proof.
  pose proof (After_gets_result 2 Sample.negate
                (Link _Around Sample.first _Stop) 0 [PyInt 3] []
                initial_State
                (set_tls (installed 0 _Stop initial_State)
                   {| context := None; activelayers := [] |})
                (PyInt 3) (PyInt (-3)) eq_refl eq_refl eq_refl) as H.
  split; [reflexivity|]. split; [exact (proj1 H)|].
  exact (proj2 H (Link _Around Sample.boom _Stop) (UserError 7)
           initial_State (installed 0 _Stop initial_State) eq_refl).
Defined.

(** X9. A call that already passes a keyword argument named [__result__]
    cannot go through an after advice: once the rest of the chain has
    returned, building the keyword arguments for the implementation raises
    [TypeError], and the implementation is not called. *)
Theorem After_result_clash (n : nat) (f : Func) (nxt : _Advice)
  (ctx : ctxref) (args : args_t) (kwargs : kwargs_t) (s s1 : State)
  (v : pyval) :
  existsb (fun kv : string * pyval => String.eqb (fst kv) "__result__")
    kwargs = true ->
  Advice_call n nxt ctx args kwargs s = Some (Return v, s1) ->
  Advice_call (S n) (Link _After f nxt) ctx args kwargs s
  = Some (Raise (TypeError multiple_values), s1).
Proof. intros Hk Hn. rewrite After_unfold, Hn, Hk. reflexivity. Qed.

Lemma After_result_clash_witness :
  existsb (fun kv : string * pyval => String.eqb (fst kv) "__result__")
    [("__result__", PyInt 0)] = true
  /\ Advice_call 3 (Link _After Sample.negate
                      (Link _Around Sample.first _Stop))
       0 [PyInt 3] [("__result__", PyInt 0)] initial_State
     = Some (Raise (TypeError multiple_values),
             set_tls (installed 0 _Stop initial_State)
               {| context := None; activelayers := [] |}).
Proof.
  split; [reflexivity|].
  exact (After_result_clash 2 Sample.negate
           (Link _Around Sample.first _Stop) 0 [PyInt 3]
           [("__result__", PyInt 0)] initial_State
           (set_tls (installed 0 _Stop initial_State)
              {| context := None; activelayers := [] |})
           (PyInt 3) eq_refl eq_refl).
Defined.

(** ** The context slot across a call *)

Lemma kept_proceed_with call args kwargs :
  (forall a ctx args kwargs, context_after ctx (call a ctx args kwargs)) ->
  context_kept (proceed_with call args kwargs).
Proof.
  intros Hc s r s' H.
  unfold proceed_with, bind, get_context, deref in H. simpl in H.
  destruct (context (_tls s)) as [cx|] eqn:E.
  - destruct (ctx_next (heap s cx)) as [nxt|].
    + apply Hc in H. destruct r as [v|e]; [congruence|].
      destruct H as [H|H]; congruence.
    + inversion H; subst. congruence.
  - inversion H; subst. congruence.
Qed.

Lemma kept_run_body (proceed : args_t -> kwargs_t -> M pyval) (b : body) :
  (forall args kwargs, context_kept (proceed args kwargs)) ->
  context_kept (run_body proceed b).
Proof.
  intro Hp. induction b as [v|e|args kwargs k IH]; simpl; intros s r s' H.
  - inversion H; subst. reflexivity.
  - inversion H; subst. reflexivity.
  - destruct (proceed args kwargs s) as [[r1 s1]|] eqn:E; [|discriminate].
    apply Hp in E. apply IH in H. congruence.
Qed.

(** A chain call that returns leaves [_tls.context] as it found it; one
    that raises leaves it as it was or pointing at its own context. *)
Lemma Advice_call_context (fuel : nat) :
  forall a ctx args kwargs,
    context_after ctx (Advice_call fuel a ctx args kwargs).
Proof.
  induction fuel as [|n IH]; intros a ctx args kwargs s r s' H.
  - discriminate.
  - assert (Hp : forall args kwargs, context_kept (proceed n args kwargs))
      by (intros; now apply kept_proceed_with).
    destruct a as [|[| |] f nxt].
    + inversion H; subst. now left.
    + rewrite Before_unfold in H.
      destruct (run_body _ _ _) as [[[v|e] s1]|] eqn:E; try discriminate.
      * apply kept_run_body in E; [|exact Hp].
        apply IH in H. destruct r; [congruence|].
        destruct H as [H|H]; [left; congruence|now right].
      * inversion H; subst. apply kept_run_body in E; [|exact Hp].
        now left.
    + rewrite Around_unfold in H.
      destruct (run_body _ _ _) as [[[v|e] s1]|] eqn:E; try discriminate.
      * inversion H; subst. reflexivity.
      * inversion H; subst. apply kept_run_body in E; [|exact Hp].
        right. exact E.
    + rewrite After_unfold in H.
      destruct (Advice_call n nxt ctx args kwargs s) as [[[v|e] s1]|] eqn:E;
        try discriminate.
      * apply IH in E. simpl in E.
        destruct (existsb _ kwargs).
        -- inversion H; subst. now left.
        -- apply kept_run_body in H; [|exact Hp].
           destruct r; [congruence|left; congruence].
      * inversion H; subst. apply IH in E. exact E.
Qed.

(** With advice implementations that use the library through [proceed]
    alone (the bodies of [body]), a call of a layered method that returns
    leaves the thread-local state exactly as it found it; a call that
    raises leaves the context slot as it was or pointing at the context
    list of that call, and the active layers as they were. *)
Theorem call_restores_thread_state (fuel : nat)
  (d : _LayeredMethodDescriptor) (inst cls : pyval) (args : args_t)
  (kwargs : kwargs_t) (s : State) :
  match snd (proxy_call fuel d inst cls args kwargs s) with
  | Some (Return _, s') => _tls s' = _tls s
  | Some (Raise _, s') =>
      (context (_tls s') = context (_tls s)
       \/ context (_tls s') = Some (heap_next s))
      /\ activelayers (_tls s') = activelayers (_tls s)
  | None => True
  end.
Proof.
  rewrite proxy_call_unfold. simpl.
  destruct (Advice_call _ _ _ _ _ _) as [[[v|e] s']|] eqn:E; [| |exact I].
  - pose proof (Advice_call_context _ _ _ _ _ _ _ _ E) as Hc.
    apply keeps_Advice_call in E. destruct E as [_ Ha]. simpl in *.
    destruct (_tls s'), (_tls s). simpl in *. congruence.
  - pose proof (Advice_call_context _ _ _ _ _ _ _ _ E) as Hc.
    apply keeps_Advice_call in E. destruct E as [_ Ha]. simpl in *.
    split; assumption.
Qed.



(** The restriction is needed.  A layered function has a base
    implementation that fails on 0 and before advice in layer 1 that tries
    the function on 0, with layer 1 switched off, and ignores the failure.
    One call on 5 with layer 1 active returns 5, yet the context slot,
    empty before the call, now refers to the context list of the call the
    advice made. *)
Example nested_failure_leaves_context :
  context (Reentrant._tls Reentrant.wary) = None
  /\ option_map fst
       (Reentrant.descriptor_call 6 [PyInt 5] [] Reentrant.wary)
     = Some (Return (PyInt 5))
  /\ context (Reentrant._tls Reentrant.tried) = Some 1
  /\ activelayers (Reentrant._tls Reentrant.tried) = [Some 1].
Proof.
  split; [reflexivity|].
  split; [vm_compute; reflexivity|].
  split; vm_compute; reflexivity.
Qed.

(** ** Chains, records and the cache *)

Lemma flat_map_nil {A B} (f : A -> list B) (xs : list A) :
  (forall x, In x xs -> f x = []) -> flat_map f xs = [].
Proof.
  induction xs as [|a xs IH]; intro H; simpl; [reflexivity|].
  rewrite (H a) by now left. apply IH. intros x Hx. apply H. now right.
Qed.

Lemma eligible_cons r methods acts l :
  eligible (r :: methods) acts l
  = (if layer_is (lm_layer r) l && lm_guard r acts
     then [(lm_func r, lm_when r)] else [])
    ++ eligible methods acts l.
Proof.
  unfold eligible. simpl.
  destruct (layer_is (lm_layer r) l && lm_guard r acts); reflexivity.
Qed.

Lemma eligible_foreign methods acts l :
  forallb (fun r => negb (layer_in (lm_layer r) acts)) methods = true ->
  In l acts -> eligible methods acts l = [].
Proof.
  intros H Hl. induction methods as [|r ms IH]; [reflexivity|].
  simpl in H. apply andb_true_iff in H as [Hr Hms].
  rewrite eligible_cons, IH by assumption.
  destruct (layer_is (lm_layer r) l) eqn:E; [|reflexivity].
  apply layer_is_eq in E. subst l.
  apply layer_in_In in Hl. rewrite Hl in Hr. discriminate.
Qed.

Lemma base_alone_chain (b : Func) (partial : list lmwgm)
  (active : list layer_) (cache : dict _Advice) :
  layer_in None active = false ->
  forallb (fun r => negb (layer_in (lm_layer r) (None :: active))) partial
  = true ->
  fst (cacheMethods
         {| _methods := mkRecord None b _Around _true None :: partial;
            _cache := cache |} (None :: active))
  = Link _Around b _Stop.
Proof.
  intros Hnone Hpartial.
  rewrite cacheMethods_chain. unfold selected.
  cbn [_methods flat_map].
  rewrite eligible_cons.
  rewrite (eligible_foreign partial (None :: active) None)
    by (assumption || now left).
  rewrite flat_map_nil; [reflexivity|].
  intros l Hl. rewrite eligible_cons.
  rewrite eligible_foreign by (assumption || now right).
  destruct l as [x|]; [reflexivity|].
  apply layer_in_In in Hl. rewrite Hl in Hnone. discriminate.
Qed.

Lemma base_alone_call (b : Func) (partial : list lmwgm)
  (active : list layer_) (n : nat) (args : args_t) (kwargs : kwargs_t)
  (s : State) (v : pyval) :
  layer_in None active = false ->
  forallb (fun r => negb (layer_in (lm_layer r) (None :: active))) partial
  = true ->
  _baseLayers s ++ activelayers (_tls s) = None :: active ->
  __call__ b args kwargs = Ret v ->
  option_map fst
    (snd (descriptor_call (S n)
            {| _methods := mkRecord None b _Around _true None :: partial;
               _cache := [] |} args kwargs s))
  = Some (Return v).
Proof.
  intros Hnone Hpartial Hcomb Hb.
  rewrite descriptor_call_proxy, proxy_call_unfold.
  unfold dispatched, lookup_or_build, combination. rewrite Hcomb.
  cbn [_cache dict_get].
  rewrite base_alone_chain by assumption.
  cbn [snd fst]. rewrite Around_unfold.
  unfold bound_call, new_context. cbn [heap fst snd ctx_inst ctx_cls].
  rewrite Nat.eqb_refl. cbn [ctx_inst ctx_cls is_None andb].
  rewrite Hb. reflexivity.
Qed.

(** X11. A layered method whose advice all belongs to layers that are not
    active is its base implementation: the chain for such a combination
    is the base implementation alone, and a call returns what the base
    implementation returns. *)
Theorem inactive_layers_are_transparent (b : Func) (partial : list lmwgm)
  (active : list layer_) (n : nat) (args : args_t) (kwargs : kwargs_t)
  (s : State) (v : pyval) :
  layer_in None active = false ->
  forallb (fun r => negb (layer_in (lm_layer r) (None :: active))) partial
  = true ->
  _baseLayers s ++ activelayers (_tls s) = None :: active ->
  __call__ b args kwargs = Ret v ->
  fst (cacheMethods (createlayeredmethod (Some b) partial) (None :: active))
  = Link _Around b _Stop
  /\ option_map fst
       (snd (descriptor_call (S n) (createlayeredmethod (Some b) partial)
               args kwargs s))
     = Some (Return v).
Proof.
  intros Hnone Hpartial Hcomb Hb. split.
  - now apply base_alone_chain.
  - now apply base_alone_call with (active := active).
Qed.

Lemma inactive_layers_are_transparent_witness :
  layer_in None [Some Sample.L2] = false
  /\ forallb (fun r => negb (layer_in (lm_layer r) [None; Some Sample.L2]))
       [mkRecord (Some Sample.L1) Sample.incr _Around _true None] = true
  /\ _baseLayers (with_layers initial_State [Some Sample.L2])
     ++ activelayers (_tls (with_layers initial_State [Some Sample.L2]))
     = [None; Some Sample.L2]
  /\ __call__ Sample.first [PyInt 4] [] = Ret (PyInt 4)
  /\ option_map fst
       (snd (descriptor_call 1
               (createlayeredmethod (Some Sample.first)
                  [mkRecord (Some Sample.L1) Sample.incr _Around _true None])
               [PyInt 4] [] (with_layers initial_State [Some Sample.L2])))
     = Some (Return (PyInt 4)).
Proof.
  do 4 (split; [reflexivity|]).
  exact (proj2 (inactive_layers_are_transparent Sample.first
                  [mkRecord (Some Sample.L1) Sample.incr _Around _true None]
                  [Some Sample.L2] 0 [PyInt 4] []
                  (with_layers initial_State [Some Sample.L2]) (PyInt 4)
                  eq_refl eq_refl eq_refl eq_refl)).
Defined.




Lemma cache_fresh_empty methods :
  cache_fresh {| _methods := methods; _cache := [] |}.
Proof. intro key. exact I. Qed.

Lemma cache_fresh_cacheMethods d key :
  cache_fresh d -> cache_fresh (snd (cacheMethods d key)).
Proof.
  intros H k. unfold cache_fresh_at.
  rewrite cacheMethods_cache, cacheMethods_methods.
  destruct (tuple_eqb key k) eqn:E.
  - apply tuple_eqb_eq in E. subst k.
    rewrite dict_get_set_same. apply cacheMethods_chain.
  - assert (Hne : key <> k)
      by (intro; subst; rewrite tuple_eqb_refl in E; discriminate).
    rewrite dict_get_set_other by exact Hne. apply H.
Qed.

(** X13. Calls keep the cache true to the records: when every cached chain is
    the one [cacheMethods] builds from the current records, as in a
    descriptor that was never called, this still holds after a call, and
    the call comes out as it would with an empty cache. *)
Theorem fresh_cache_is_transparent (fuel : nat)
  (d : _LayeredMethodDescriptor) (inst cls : pyval) (args : args_t)
  (kwargs : kwargs_t) (s : State) :
  cache_fresh d ->
  cache_fresh (fst (proxy_call fuel d inst cls args kwargs s))
  /\ snd (proxy_call fuel d inst cls args kwargs s)
     = snd (proxy_call fuel {| _methods := _methods d; _cache := [] |}
              inst cls args kwargs s).
Proof.
  intro H. rewrite !proxy_call_unfold. cbn [fst snd]. split.
  - unfold lookup_or_build.
    destruct (dict_get (_cache d) (combination s)); cbn [snd];
      [exact H|now apply cache_fresh_cacheMethods].
  - rewrite (dispatched_fresh d s) by apply H.
    rewrite (dispatched_fresh {| _methods := _methods d; _cache := [] |} s)
      by exact I.
    reflexivity.
Qed.

Lemma fresh_cache_is_transparent_witness :
  cache_fresh Sample.layered
  /\ cache_fresh (fst (proxy_call 4 Sample.layered PyNone PyNone [PyInt 1] []
                         (with_layers initial_State [Some Sample.L1]))).
Proof.
  assert (H : cache_fresh Sample.layered) by (intro key; exact I).
  split; [exact H|].
  exact (proj1 (fresh_cache_is_transparent 4 Sample.layered PyNone PyNone
                  [PyInt 1] [] (with_layers initial_State [Some Sample.L1])
                  H)).
Defined.

(** ** Registration *)

Lemma setMethods_cases (d : _LayeredMethodDescriptor)
  (methods : list lmwgm) :
  setMethods d methods
  = Some (match _cache d with
          | [] => (Return tt, {| _methods := methods; _cache := [] |})
          | _ :: rest =>
              (Raise (RuntimeError changed_size),
               {| _methods := methods; _cache := rest |})
          end).
Proof.
  unfold setMethods. destruct (_cache d) as [|[key chain] rest].
  - apply _clearCache_empty.
  - apply _clearCache_nonempty.
Qed.

(** X14. What [_clearCache], and with it every assignment to [methods], comes
    to: on an empty cache it returns; on any other cache it removes the
    first entry, keeps the others and raises [RuntimeError].  The records
    are replaced in both cases, and the loop always ends within its
    budget. *)
Theorem setMethods_outcome (d : _LayeredMethodDescriptor)
  (methods : list lmwgm) :
  setMethods d methods
  = Some (match _cache d with
          | [] => (Return tt, {| _methods := methods; _cache := [] |})
          | _ :: rest =>
              (Raise (RuntimeError changed_size),
               {| _methods := methods; _cache := rest |})
          end).
Proof. apply setMethods_cases. Qed.

(** X15. Advice registered before the method was ever called takes effect:
    [registerMethod] returns, the record is appended after the existing
    ones under the name of the function when no name is given, the cache
    stays empty, and the chain built for any combination that holds the
    layer and passes the guard contains the new advice. *)
Theorem registration_before_first_call (d : _LayeredMethodDescriptor)
  (f : Func) (when : when_) (l : layer_) (guard : list layer_ -> bool)
  (methodName : string) (acts : list layer_) :
  _cache d = [] ->
  layer_in l acts = true ->
  guard acts = true ->
  exists d',
    registerMethod d f when l guard methodName = Some (Return tt, d')
    /\ _methods d'
       = _methods d
         ++ [mkRecord l f when guard
               (Some (if String.eqb methodName "" then __name__ f
                      else methodName))]
    /\ _cache d' = []
    /\ In (f, when) (links (fst (cacheMethods d' acts))).
Proof.
  intros Hcold Hl Hg. eexists. split.
  - unfold registerMethod. rewrite setMethods_cases, Hcold. reflexivity.
  - split; [reflexivity|]. split; [reflexivity|].
    rewrite cacheMethods_chain, links_createChain, <- in_rev.
    apply In_selected. eexists. split.
    + cbn [_methods getMethods]. apply in_or_app. right. now left.
    + cbn. auto.
Qed.

Lemma registration_before_first_call_witness :
  _cache Sample.plain = []
  /\ layer_in (Some Sample.L1) [None; Some Sample.L1] = true
  /\ _true [None; Some Sample.L1] = true
  /\ exists d',
       registerMethod Sample.plain Sample.incr _Around (Some Sample.L1)
         _true "" = Some (Return tt, d')
       /\ _methods d'
          = _methods Sample.plain
            ++ [mkRecord (Some Sample.L1) Sample.incr _Around _true
                  (Some "incr")]
       /\ _cache d' = []
       /\ In (Sample.incr, _Around)
            (links (fst (cacheMethods d' [None; Some Sample.L1]))).
Proof.
  do 3 (split; [reflexivity|]).
  exact (registration_before_first_call Sample.plain Sample.incr _Around
           (Some Sample.L1) _true "" [None; Some Sample.L1]
           eq_refl eq_refl eq_refl).
Defined.

Lemma eligible_swap pre post r1 r2 acts l :
  lm_layer r1 <> lm_layer r2 ->
  eligible (pre ++ r1 :: r2 :: post) acts l
  = eligible (pre ++ r2 :: r1 :: post) acts l.
Proof.
  intro Hne. unfold eligible. rewrite !filter_app. f_equal. f_equal.
  cbn [filter].
  destruct (layer_is (lm_layer r1) l) eqn:E1;
    destruct (layer_is (lm_layer r2) l) eqn:E2; cbn [andb];
    try (apply layer_is_eq in E1; apply layer_is_eq in E2; congruence);
    destruct (lm_guard r1 acts); destruct (lm_guard r2 acts); reflexivity.
Qed.

(** X16. The order of registration only counts among the records of one layer:
    exchanging two neighbouring records of different layers changes the
    chain of no combination. *)
Theorem order_across_layers_is_irrelevant (pre post : list lmwgm)
  (r1 r2 : lmwgm) (acts : list layer_) (cache1 cache2 : dict _Advice) :
  lm_layer r1 <> lm_layer r2 ->
  fst (cacheMethods {| _methods := pre ++ r1 :: r2 :: post;
                       _cache := cache1 |} acts)
  = fst (cacheMethods {| _methods := pre ++ r2 :: r1 :: post;
                         _cache := cache2 |} acts).
Proof.
  intro Hne. rewrite !cacheMethods_chain. cbn [_methods].
  unfold selected. f_equal. f_equal.
  apply flat_map_ext. intro l. now apply eligible_swap.
Qed.

Lemma order_across_layers_is_irrelevant_witness :
  lm_layer (mkRecord None Sample.first _Around _true None)
  <> lm_layer (mkRecord (Some Sample.L1) Sample.incr _Around _true None)
  /\ fst (cacheMethods
            {| _methods := [mkRecord None Sample.first _Around _true None;
                            mkRecord (Some Sample.L1) Sample.incr _Around
                              _true None];
               _cache := [] |} [None; Some Sample.L1])
     = fst (cacheMethods
              {| _methods := [mkRecord (Some Sample.L1) Sample.incr _Around
                                _true None;
                              mkRecord None Sample.first _Around _true None];
                 _cache := [] |} [None; Some Sample.L1]).
Proof.
  assert (H : lm_layer (mkRecord None Sample.first _Around _true None)
              <> lm_layer (mkRecord (Some Sample.L1) Sample.incr _Around
                             _true None)) by discriminate.
  split; [exact H|].
  exact (order_across_layers_is_irrelevant [] []
           (mkRecord None Sample.first _Around _true None)
           (mkRecord (Some Sample.L1) Sample.incr _Around _true None)
           [None; Some Sample.L1] [] [] H).
Defined.

(** ** The base layers *)

Lemma layer_is_sym (a b : layer_) : layer_is a b = layer_is b a.
Proof.
  destruct a as [x|], b as [y|]; simpl; try reflexivity. apply Nat.eqb_sym.
Qed.

Lemma filter_absent (l : layer_) (xs : list layer_) :
  layer_in l xs = false ->
  filter (fun x => negb (layer_is x l)) xs = xs.
Proof.
  unfold layer_in. induction xs as [|a xs IH]; simpl; intro H;
    [reflexivity|].
  apply orb_false_iff in H as [H1 H2].
  rewrite layer_is_sym, H1. simpl. now rewrite IH.
Qed.

Lemma state_eta (s : State) :
  {| _baseLayers := _baseLayers s; _tls := _tls s; heap := heap s;
     heap_next := heap_next s |} = s.
Proof. now destruct s. Qed.

(** X17. For a layer that is not among the base layers: activating it globally
    appends it, activating it once more raises [ValueError] and changes
    nothing, deactivating it afterwards gives back the very state
    activation started from, and deactivating it without activation raises
    [ValueError] and changes nothing. *)
Theorem global_activation_round_trip (l : layer_) (s : State) :
  layer_in l (_baseLayers s) = false ->
  globalActivateLayer l s
  = (Return (_baseLayers s ++ [l]), set_baseLayers s (_baseLayers s ++ [l]))
  /\ globalActivateLayer l (snd (globalActivateLayer l s))
     = (Raise (ValueError "layer is already active"),
        snd (globalActivateLayer l s))
  /\ globalDeactivateLayer l (snd (globalActivateLayer l s))
     = (Return (_baseLayers s), s)
  /\ globalDeactivateLayer l s = (Raise (ValueError "layer is not active"), s).
Proof.
  intro H.
  assert (Hact : globalActivateLayer l s
                 = (Return (_baseLayers s ++ [l]),
                    set_baseLayers s (_baseLayers s ++ [l])))
    by (unfold globalActivateLayer; now rewrite H).
  assert (Hin : layer_in l (_baseLayers s ++ [l]) = true).
  { rewrite layer_in_app. simpl. rewrite layer_is_refl.
    now rewrite orb_true_r. }
  split; [exact Hact|]. rewrite Hact. cbn [snd]. split.
  - unfold globalActivateLayer. cbn [_baseLayers set_baseLayers].
    now rewrite Hin.
  - split.
    + unfold globalDeactivateLayer. cbn [_baseLayers set_baseLayers].
      rewrite Hin. cbn [negb].
      rewrite filter_app, (filter_absent l _ H). simpl.
      rewrite layer_is_refl. simpl. rewrite app_nil_r.
      unfold set_baseLayers. simpl. now rewrite state_eta.
    + unfold globalDeactivateLayer. now rewrite H.
Qed.

Lemma global_activation_round_trip_witness :
  layer_in (Some Sample.G) (_baseLayers initial_State) = false
  /\ globalDeactivateLayer (Some Sample.G)
       (snd (globalActivateLayer (Some Sample.G) initial_State))
     = (Return (_baseLayers initial_State), initial_State).
Proof.
  split; [reflexivity|].
  exact (proj1 (proj2 (proj2 (global_activation_round_trip (Some Sample.G)
                                initial_State eq_refl)))).
Defined.

(** X18. Base layers without repetition stay so through global activation and
    deactivation, in whichever way these end; afterwards the layer is a
    base layer, respectively is none; and the thread-local state is not
    touched. *)
Theorem global_layers_stay_distinct (l : layer_) (s : State) :
  NoDup (_baseLayers s) ->
  NoDup (_baseLayers (snd (globalActivateLayer l s)))
  /\ NoDup (_baseLayers (snd (globalDeactivateLayer l s)))
  /\ layer_in l (_baseLayers (snd (globalActivateLayer l s))) = true
  /\ layer_in l (_baseLayers (snd (globalDeactivateLayer l s))) = false
  /\ _tls (snd (globalActivateLayer l s)) = _tls s
  /\ _tls (snd (globalDeactivateLayer l s)) = _tls s.
Proof.
  intro Hd. unfold globalActivateLayer, globalDeactivateLayer.
  destruct (layer_in l (_baseLayers s)) eqn:E; cbn [negb snd _baseLayers
    set_baseLayers _tls].
  - repeat split; try assumption.
    + now apply NoDup_filter.
    + rewrite layer_in_filter, layer_is_refl. apply andb_false_r.
  - repeat split; try assumption.
    + apply NoDup_app; [assumption|repeat constructor; intros []|].
      intros a Ha [Hb|[]]. subst a.
      apply layer_in_In in Ha. congruence.
    + rewrite layer_in_app. simpl. rewrite layer_is_refl.
      now rewrite orb_true_r.
Qed.

Lemma global_layers_stay_distinct_witness :
  NoDup (_baseLayers initial_State)
  /\ NoDup (_baseLayers
              (snd (globalActivateLayer (Some Sample.G) initial_State))).
Proof.
  assert (H : NoDup (_baseLayers initial_State)).
  { simpl. repeat constructor. intros []. }
  split; [exact H|].
  exact (proj1 (global_layers_stay_distinct (Some Sample.G) initial_State H)).
Defined.

(** ** Declarations *)

Lemma vars_get_set_same vars name b :
  vars_get (vars_set vars name b) name = Some b.
Proof.
  induction vars as [|[n b'] vars IH]; simpl.
  - now rewrite String.eqb_refl.
  - destruct (String.eqb n name) eqn:E; simpl; rewrite E; auto.
Qed.

Lemma vars_set_set vars name b1 b2 :
  vars_set (vars_set vars name b1) name b2 = vars_set vars name b2.
Proof.
  induction vars as [|[n b'] vars IH]; simpl.
  - now rewrite String.eqb_refl.
  - destruct (String.eqb n name) eqn:E; simpl; rewrite E; [reflexivity|].
    now rewrite IH.
Qed.

Lemma selected_foreign methods acts :
  forallb (fun r => negb (layer_in (lm_layer r) acts)) methods = true ->
  selected methods acts = [].
Proof.
  intro H. unfold selected. apply flat_map_nil.
  intros l Hl. now apply eligible_foreign.
Qed.

(** X19. Advice declared for a name that has no binding yet makes a layered
    method without base implementation: the name is bound to a descriptor
    holding that one record, and calling it while the layer of the advice
    is not active raises the error of [_Stop]. *)
Theorem advice_on_unbound_name (l : layer_) (guard : list layer_ -> bool)
  (when : when_) (method : Func) (vars : namespace) (n : nat)
  (args : args_t) (kwargs : kwargs_t) (s : State) :
  vars_get vars (__name__ method) = None ->
  layer_in l (_baseLayers s ++ activelayers (_tls s)) = false ->
  let d := {| _methods := [mkRecord l method when guard
                             (Some (__name__ method))];
              _cache := [] |} in
  def_decorated (__common l guard when) method vars
  = Some (Return tt, vars_set vars (__name__ method) (Layered d))
  /\ vars_get (declared (def_decorated (__common l guard when) method vars)
                 vars) (__name__ method)
     = Some (Layered d)
  /\ snd (descriptor_call (S n) d args kwargs s)
     = Some (Raise (Exception_ _Stop_msg), snd (new_context PyNone PyNone s)).
Proof.
  intros Hfree Hl d.
  assert (Hdef : def_decorated (__common l guard when) method vars
                 = Some (Return tt,
                         vars_set vars (__name__ method) (Layered d))).
  { unfold def_decorated, __common, getMethodName. now rewrite Hfree. }
  split; [exact Hdef|]. split.
  - rewrite Hdef. cbn [declared]. apply vars_get_set_same.
  - rewrite descriptor_call_proxy, proxy_call_unfold.
    unfold dispatched, lookup_or_build, combination.
    cbn [_cache dict_get d fst]. rewrite cacheMethods_chain.
    rewrite selected_foreign; [reflexivity|].
    unfold d. cbn [_methods forallb lm_layer]. now rewrite Hl.
Qed.

Lemma advice_on_unbound_name_witness :
  vars_get [] (__name__ Sample.incr) = None
  /\ layer_in (Some Sample.L1)
       (_baseLayers initial_State ++ activelayers (_tls initial_State))
     = false
  /\ snd (descriptor_call 1
            {| _methods := [mkRecord (Some Sample.L1) Sample.incr _Around
                              _true (Some (__name__ Sample.incr))];
               _cache := [] |} [PyInt 1] [] initial_State)
     = Some (Raise (Exception_ _Stop_msg),
             snd (new_context PyNone PyNone initial_State)).
Proof.
  do 2 (split; [reflexivity|]).
  exact (proj2 (proj2 (advice_on_unbound_name (Some Sample.L1) _true _Around
                         Sample.incr [] 0 [PyInt 1] [] initial_State
                         eq_refl eq_refl))).
Defined.

(** X20. Advice declared for a name bound to a plain function makes that
    function the base implementation: the name is then bound to a
    descriptor with the function as first record, in layer [None], and
    the advice as second; while the layer of the advice is not active a
    call returns what the plain function returns. *)
Theorem advice_on_plain_function (l : layer_) (guard : list layer_ -> bool)
  (when : when_) (method b : Func) (vars : namespace)
  (active : list layer_) (n : nat) (args : args_t) (kwargs : kwargs_t)
  (s : State) (v : pyval) :
  __name__ method = __name__ b ->
  layer_in None active = false ->
  layer_in l (None :: active) = false ->
  _baseLayers s ++ activelayers (_tls s) = None :: active ->
  __call__ b args kwargs = Ret v ->
  let d := {| _methods := [mkRecord None b _Around _true None;
                           mkRecord l method when guard
                             (Some (__name__ method))];
              _cache := [] |} in
  def_decorated (__common l guard when) method (def_plain b vars)
  = Some (Return tt, vars_set vars (__name__ b) (Layered d))
  /\ option_map fst (snd (descriptor_call (S n) d args kwargs s))
     = Some (Return v).
Proof.
  intros Hname Hnone Hl Hcomb Hb d. split.
  - unfold def_decorated, __common, getMethodName, def_plain.
    rewrite Hname, vars_get_set_same. cbn [createlayeredmethod].
    rewrite vars_set_set. rewrite <- Hname. reflexivity.
  - apply base_alone_call with (active := active); try assumption.
    cbn [forallb lm_layer]. now rewrite Hl.
Qed.

Lemma advice_on_plain_function_witness :
  __name__ Sample.first_incr = __name__ Sample.first
  /\ layer_in None [] = false
  /\ layer_in (Some Sample.L1) [None] = false
  /\ _baseLayers initial_State ++ activelayers (_tls initial_State) = [None]
  /\ __call__ Sample.first [PyInt 4] [] = Ret (PyInt 4)
  /\ def_decorated (__common (Some Sample.L1) _true _Around)
       Sample.first_incr (def_plain Sample.first [])
     = Some (Return tt,
             [("first",
               Layered
                 {| _methods := [mkRecord None Sample.first _Around _true None;
                                 mkRecord (Some Sample.L1) Sample.first_incr
                                   _Around _true (Some "first")];
                    _cache := [] |})]).
Proof.
  do 5 (split; [reflexivity|]).
  exact (proj1 (advice_on_plain_function (Some Sample.L1) _true _Around
                  Sample.first_incr Sample.first [] [] 0 [PyInt 4] []
                  initial_State (PyInt 4)
                  eq_refl eq_refl eq_refl eq_refl eq_refl)).
Defined.

(** X21. Declaring the base implementation after the advice with [base] gives
    the same chains as defining the plain function first and declaring
    the advice on top of it: for a name without earlier binding and advice
    in a layer other than [None], both orders bind the name to a layered
    method with an empty cache, and the two build the same chain for
    every combination. *)
Theorem base_declared_last_or_first (x : Layer)
  (guard : list layer_ -> bool) (when : when_) (a b : Func)
  (vars : namespace) (acts : list layer_) :
  vars_get vars (__name__ b) = None ->
  __name__ a = __name__ b ->
  exists dA dB,
    def_decorated (__common (Some x) guard when) a (def_plain b vars)
    = Some (Return tt, vars_set vars (__name__ b) (Layered dA))
    /\ def_decorated base b
         (declared (def_decorated (__common (Some x) guard when) a vars)
            vars)
       = Some (Return tt, vars_set vars (__name__ b) (Layered dB))
    /\ _cache dA = [] /\ _cache dB = []
    /\ fst (cacheMethods dA acts) = fst (cacheMethods dB acts).
Proof.
  intros Hfree Hname.
  exists {| _methods := [mkRecord None b _Around _true None;
                         mkRecord (Some x) a when guard (Some (__name__ a))];
            _cache := [] |},
         {| _methods := [mkRecord (Some x) a when guard (Some (__name__ a));
                         mkRecord None b _Around _true None];
            _cache := [] |}.
  split.
  { unfold def_decorated, __common, getMethodName, def_plain.
    rewrite Hname, vars_get_set_same. cbn [createlayeredmethod].
    now rewrite vars_set_set. }
  split.
  { unfold def_decorated at 2. unfold __common, getMethodName.
    rewrite Hname, Hfree. cbn [declared].
    unfold def_decorated, base, getMethodName.
    rewrite vars_get_set_same.
    rewrite setMethods_cases.
    cbn [createlayeredmethod _LayeredMethodDescriptor_init _cache
         getMethods _methods app].
    now rewrite !vars_set_set. }
  split; [reflexivity|]. split; [reflexivity|].
  rewrite !cacheMethods_chain. cbn [_methods]. unfold selected.
  f_equal. f_equal. apply flat_map_ext. intro l.
  apply (eligible_swap [] []). discriminate.
Qed.

Lemma base_declared_last_or_first_witness :
  vars_get [] (__name__ Sample.first) = None
  /\ __name__ Sample.first_incr = __name__ Sample.first
  /\ exists dA dB,
       def_decorated (__common (Some Sample.L1) _true _Around)
         Sample.first_incr (def_plain Sample.first [])
       = Some (Return tt,
               vars_set [] (__name__ Sample.first) (Layered dA))
       /\ def_decorated base Sample.first
            (declared (def_decorated (__common (Some Sample.L1) _true _Around)
                         Sample.first_incr []) [])
          = Some (Return tt,
                  vars_set [] (__name__ Sample.first) (Layered dB))
       /\ _cache dA = [] /\ _cache dB = []
       /\ fst (cacheMethods dA [None; Some Sample.L1])
          = fst (cacheMethods dB [None; Some Sample.L1]).
Proof.
  do 2 (split; [reflexivity|]).
  exact (base_declared_last_or_first Sample.L1 _true _Around
           Sample.first_incr Sample.first [] [None; Some Sample.L1]
           eq_refl eq_refl).
Defined.

(** ** Layers and the chain *)

Lemma flat_map_ext_in {A B} (f g : A -> list B) (xs : list A) :
  (forall x, In x xs -> f x = g x) -> flat_map f xs = flat_map g xs.
Proof.
  induction xs as [|a xs IH]; intro H; simpl; [reflexivity|].
  rewrite (H a) by now left. f_equal. apply IH.
  intros x Hx. apply H. now right.
Qed.

Lemma eligible_without (l c : layer_) methods acts :
  layer_is c l = false ->
  eligible (filter (fun r => negb (layer_is (lm_layer r) l)) methods) acts c
  = eligible methods acts c.
Proof.
  intro Hc. induction methods as [|r ms IH]; [reflexivity|].
  cbn [filter]. destruct (layer_is (lm_layer r) l) eqn:E; cbn [negb].
  - rewrite IH, eligible_cons.
    apply layer_is_eq in E. rewrite E, layer_is_sym, Hc. reflexivity.
  - rewrite !eligible_cons, IH. reflexivity.
Qed.

(** X22. A globally activated layer ranks below every scoped layer: after
    [globalActivateLayer] the combination of a call is the old base
    layers, the new layer, then the thread's active layers, so in every
    chain the advice of the thread's active layers comes first, then the
    advice of the new base layer, then that of the older base layers. *)
Theorem global_layer_below_scoped (d : _LayeredMethodDescriptor)
  (g : layer_) (s : State) :
  layer_in g (_baseLayers s) = false ->
  let acts := _baseLayers s ++ [g] ++ activelayers (_tls s) in
  combination (snd (globalActivateLayer g s)) = acts
  /\ links (fst (cacheMethods d acts))
     = flat_map (fun l => rev (eligible (_methods d) acts l))
         (rev (activelayers (_tls s)))
       ++ rev (eligible (_methods d) acts g)
       ++ flat_map (fun l => rev (eligible (_methods d) acts l))
            (rev (_baseLayers s)).
Proof.
  intros H acts. split.
  - unfold globalActivateLayer, combination. rewrite H.
    cbn [snd set_baseLayers _baseLayers _tls]. unfold acts.
    now rewrite <- app_assoc.
  - rewrite links_cacheMethods. unfold acts at 2.
    rewrite !rev_app_distr, !flat_map_app. cbn [rev app flat_map].
    now rewrite app_nil_r, <- app_assoc.
Qed.

Lemma global_layer_below_scoped_witness :
  layer_in (Some Sample.G)
    (_baseLayers (with_layers initial_State [Some Sample.L1])) = false
  /\ links (fst (cacheMethods Sample.stacked
                   [None; Some Sample.G; Some Sample.L1]))
     = [(Sample.incr, _Around); (Sample.twice, _Around);
        (Sample.first, _Around)].
Proof.
  split; [reflexivity|].
  exact (proj2 (global_layer_below_scoped Sample.stacked (Some Sample.G)
                  (with_layers initial_State [Some Sample.L1]) eq_refl)).
Defined.

(** X23. Inside [inactiveLayers] a given layer that is not a base layer
    does not take part: it is absent from the combination of a call made
    there, and the chain such a call builds is the chain of the same method
    with every record of that layer left out. *)
Theorem deactivated_layer_takes_no_part (d : _LayeredMethodDescriptor)
  (layers : list layer_) (l : layer_) (s : State) :
  layer_in l layers = true ->
  layer_in l (_baseLayers s) = false ->
  let inside :=
    set_tls s (snd (__enter__ (inactiveLayers layers) (_tls s))) in
  layer_in l (combination inside) = false
  /\ fst (cacheMethods d (combination inside))
     = fst (cacheMethods
              {| _methods := filter (fun r => negb (layer_is (lm_layer r) l))
                               (_methods d);
                 _cache := [] |} (combination inside)).
Proof.
  intros Hgiven H inside.
  assert (Hout : layer_in l (combination inside) = false).
  { unfold inside, combination. cbn [set_tls _baseLayers _tls].
    rewrite layer_in_app, H. cbn [orb].
    unfold __enter__, inactiveLayers, _LayerManager_init, _getActiveLayers.
    cbn [snd activelayers mgr_class _layers _oldLayers].
    rewrite layer_in_filter, Hgiven. apply andb_false_r. }
  split; [exact Hout|].
  rewrite !cacheMethods_chain. cbn [_methods]. unfold selected.
  f_equal. f_equal. apply flat_map_ext_in. intros c Hc.
  symmetry. apply eligible_without.
  destruct (layer_is c l) eqn:E; [|reflexivity].
  apply layer_is_eq in E. subst c.
  apply layer_in_In in Hc. congruence.
Qed.

Lemma deactivated_layer_takes_no_part_witness :
  layer_in (Some Sample.L1) [Some Sample.L1] = true
  /\ layer_in (Some Sample.L1)
       (_baseLayers
          (with_layers initial_State [Some Sample.L1; Some Sample.L2]))
     = false
  /\ fst (cacheMethods Sample.layered [None; Some Sample.L2])
     = Link _Around Sample.twice (Link _Around Sample.first _Stop).
Proof.
  do 2 (split; [reflexivity|]).
  exact (proj2 (deactivated_layer_takes_no_part Sample.layered
                  [Some Sample.L1] (Some Sample.L1)
                  (with_layers initial_State [Some Sample.L1; Some Sample.L2])
                  eq_refl eq_refl)).
Defined.
